(** * crypto-oi: open-interest aggregation and outlier classification

    A shallow embedding of [main.py].  Python floats are IEEE binary64
    numbers and are modelled by Rocq's primitive floats; Python dicts are
    association lists kept in insertion order (the aggregator reads
    "the first key" of a dict, and the notifier iterates dicts in
    insertion order); exceptions are the error side of a result type. *)

From Stdlib Require Import ZArith List Ascii String Bool Lia Permutation.
From Stdlib Require Import Floats.
Import ListNotations.

#[local] Open Scope string_scope.
#[local] Open Scope float_scope.

(** ** Exceptions and results *)

Module Py.

(** The exceptions the program can raise, by their Python class. *)
Inductive exn : Type :=
| AttributeError
| IndexError
| TypeError
| KeyError (key : string)
| ValueError
| ZeroDivisionError
| StatisticsError
| FileNotFoundError
| ContentTypeError
| ClientError.

(** A Python expression either yields a value or raises. *)
Inductive result (A : Type) : Type :=
| Ok (a : A)
| Raise (e : exn).
Arguments Ok {A} a.
Arguments Raise {A} e.

Definition bind {A B : Type} (r : result A) (k : A -> result B) : result B :=
  match r with
  | Ok a => k a
  | Raise e => Raise e
  end.

Definition is_ok {A : Type} (r : result A) : bool :=
  match r with Ok _ => true | Raise _ => false end.

(** ** Dictionaries, in insertion order *)

Definition dict (V : Type) : Type := list (string * V).

Definition keys {V : Type} (d : dict V) : list string := map fst d.
Definition values {V : Type} (d : dict V) : list V := map snd d.

(** [d.get(k)] *)
Fixpoint dict_get {V : Type} (k : string) (d : dict V) : option V :=
  match d with
  | [] => None
  | (k', v) :: rest => if String.eqb k k' then Some v else dict_get k rest
  end.

(** [d.get(k, dflt)] *)
Definition dict_get_default {V : Type} (k : string) (dflt : V) (d : dict V) : V :=
  match dict_get k d with
  | Some v => v
  | None => dflt
  end.

(** [d[k]], which raises [KeyError] on a missing key *)
Definition dict_item {V : Type} (k : string) (d : dict V) : result V :=
  match dict_get k d with
  | Some v => Ok v
  | None => Raise (KeyError k)
  end.

(** [d[k] = v]: an existing key keeps its position, a new key goes last *)
Fixpoint dict_set {V : Type} (k : string) (v : V) (d : dict V) : dict V :=
  match d with
  | [] => [(k, v)]
  | (k', v') :: rest =>
      if String.eqb k k' then (k', v) :: rest else (k', v') :: dict_set k v rest
  end.

(** [list(d.keys())[0]], which raises [IndexError] on an empty dict *)
Definition first_key {V : Type} (d : dict V) : result string :=
  match d with
  | [] => Raise IndexError
  | (k, _) :: _ => Ok k
  end.

(** [x / y] on floats: Python raises on a zero divisor instead of
    returning an infinity or a NaN. *)
Definition truediv (x y : float) : result float :=
  if y =? 0 then Raise ZeroDivisionError else Ok (x / y).

End Py.

Import Py.

Notation "x <- r ;; k" := (bind r (fun x => k))
  (at level 61, r at next level, right associativity).

(** ** Adapter outputs *)

(** A value stored under the first key of an adapter's dict: the open
    interest itself (Binance), or the list of one-coin dicts of a bulk
    adapter (Bybit, FTX). *)
Inductive value : Type :=
| VNum (x : float)
| VList (syms : list (dict float)).

(** What one slot of [asyncio.gather(..., return_exceptions=True)] holds:
    [None] (a dropped query), a dict, or the exception a task raised. *)
Inductive response : Type :=
| RNone
| RDict (d : dict value)
| RExc (e : exn).

(** [not r]: [None] and the empty dict are false, an exception object has
    neither [__bool__] nor [__len__] and is true. *)
Definition falsy (r : response) : bool :=
  match r with
  | RNone => true
  | RDict [] => true
  | RDict (_ :: _) => false
  | RExc _ => false
  end.

(** [key1 in ('bybit', 'ftx')] *)
Definition is_source_tag (key : string) : bool :=
  String.eqb key "bybit" || String.eqb key "ftx".

(** ** The aggregator, [aggregate_oi] (lines 18-36) *)

(** [curr_oi[key] = curr_oi.get(key, 0) + x]; the int default [0] is
    converted to the float [0.0] by the addition. *)
Definition accumulate (curr_oi : dict float) (key : string) (x : float) : dict float :=
  dict_set key (dict_get_default key 0 curr_oi + x) curr_oi.

(** The inner loop, [for sym in r[key1]] (lines 30-32). *)
Fixpoint add_syms (syms : list (dict float)) (curr_oi : dict float)
  : result (dict float) :=
  match syms with
  | [] => Ok curr_oi
  | sym :: rest =>
      key2 <- first_key sym ;;
      x <- dict_item key2 sym ;;
      add_syms rest (accumulate curr_oi key2 x)
  end.

(** One iteration of the outer loop (lines 26-34). *)
Definition merge_response (curr_oi : dict float) (r : response) : result (dict float) :=
  if falsy r then Ok curr_oi
  else
    match r with
    | RDict d =>
        key1 <- first_key d ;;
        v <- dict_item key1 d ;;
        if is_source_tag key1 then
          match v with
          | VList syms => add_syms syms curr_oi
          | VNum _ => Raise TypeError
          end
        else
          match v with
          | VNum x => Ok (accumulate curr_oi key1 x)
          | VList _ => Raise TypeError
          end
    | RNone => Ok curr_oi
    | RExc _ => Raise AttributeError
    end.

Fixpoint aggregate_from (responses : list response) (curr_oi : dict float)
  : result (dict float) :=
  match responses with
  | [] => Ok curr_oi
  | r :: rest =>
      curr_oi' <- merge_response curr_oi r ;;
      aggregate_from rest curr_oi'
  end.

Definition aggregate_oi (responses : list response) : result (dict float) :=
  aggregate_from responses [].

(** *** What an output contributes to a coin

    The contributions of an adapter output to [coin], in the order the
    aggregator meets them: the single value of a scalar-shaped output
    whose key is [coin], and every entry for [coin] of a list-shaped
    output. *)

Definition sym_contribution (coin : string) (sym : dict float) : list float :=
  match sym with
  | (key2, x) :: _ => if String.eqb coin key2 then [x] else []
  | [] => []
  end.

Definition contributions_of (coin : string) (r : response) : list float :=
  match r with
  | RDict ((key1, VList syms) :: _) =>
      if is_source_tag key1 then flat_map (sym_contribution coin) syms else []
  | RDict ((key1, VNum x) :: _) =>
      if is_source_tag key1 then [] else if String.eqb coin key1 then [x] else []
  | _ => []
  end.

Definition contributions (coin : string) (responses : list response) : list float :=
  flat_map (contributions_of coin) responses.

(** The running total the aggregator keeps for a coin: no entry before the
    first contribution, then the left-to-right float sum from [0]. *)
Definition total (xs : list float) : option float :=
  match xs with
  | [] => None
  | _ :: _ => Some (fold_left PrimFloat.add xs 0)
  end.

(** The shapes the adapters produce: [None], [{}], a scalar [{coin: oi}]
    whose coin is not a source tag, or [{'bybit'|'ftx': [{coin: oi}, ...]}]
    with one coin per entry. *)
Definition well_formed (r : response) : Prop :=
  match r with
  | RNone => True
  | RDict [] => True
  | RDict [(key1, VNum _)] => is_source_tag key1 = false
  | RDict [(key1, VList syms)] =>
      is_source_tag key1 = true
      /\ Forall (fun sym : dict float => List.length sym = 1%nat) syms
  | RDict _ => False
  | RExc _ => False
  end.

(** ** Adapter A: the per-symbol query, [get_oi_binance] (lines 55-72) *)

(** What a coroutine run as a task ends with: a returned value, a raised
    exception, or [sys.exit()], whose [SystemExit] is not an [Exception]
    and is never stored as a task's result. *)
Inductive outcome (A : Type) : Type :=
| Returned (a : A)
| Raised (e : exn)
| Exited.
Arguments Returned {A} a.
Arguments Raised {A} e.
Arguments Exited {A}.

Definition outcome_of_result {A : Type} (r : result A) : outcome A :=
  match r with
  | Ok a => Returned a
  | Raise e => Raised e
  end.

(** The answer to one GET: the status, and the body decoded by
    [resp.json()] as an object with string fields ([None] when the body is
    not JSON and [resp.json()] raises). *)
Record http_response : Type := {
  status : Z;
  json : option (dict string)
}.

(** A line printed by [print(stat, resp)]. *)
Definition log_line : Type := (Z * dict string)%type.

Section Binance.

(** Python's [float(s)] on a string; [None] stands for [ValueError]. *)
Variable py_float : string -> option float.

(** The endpoint's answer to the query for a symbol. *)
Variable session_get : string -> http_response.

Definition get_oi_binance (symbol coin : string) : list log_line * outcome response :=
  let resp := session_get symbol in
  let stat := status resp in
  match json resp with
  | None => ([], Raised ContentTypeError)
  | Some body =>
      if (stat =? 200)%Z then
        match dict_get "openInterest" body with
        | None => ([], Raised (KeyError "openInterest"))
        | Some s =>
            match py_float s with
            | None => ([], Raised ValueError)
            | Some x => ([], Returned (RDict [(coin, VNum x)]))
            end
        end
      else if (stat =? 429)%Z then ([(stat, body)], Exited)
      else ([(stat, body)], Returned RNone)
  end.

End Binance.

(** ** The orchestrator, [oi] (lines 113-133) *)

(** [asyncio.gather] with [return_exceptions=True]: every task runs to
    its end and an exception becomes the value of its slot; a
    [SystemExit] raised inside a task is re-raised through the event loop
    and ends the run, for which [None] stands. *)
Definition slot_of (t : outcome response) : option response :=
  match t with
  | Returned r => Some r
  | Raised e => Some (RExc e)
  | Exited => None
  end.

Fixpoint gather (tasks : list (outcome response)) : option (list response) :=
  match tasks with
  | [] => Some []
  | t :: rest =>
      match slot_of t, gather rest with
      | Some r, Some responses => Some (r :: responses)
      | _, _ => None
      end
  end.

(** [oi], given what the tasks created at lines 124-130 end with. *)
Definition oi (tasks : list (outcome response)) : outcome (dict float) :=
  match gather tasks with
  | Some responses => outcome_of_result (aggregate_oi responses)
  | None => Exited
  end.

(** ** Diff and classification, inside [send_tg] (lines 150-169) *)

(** Lines 152-155 for one coin; the int [0] of line 153 is the float [0.0]
    in every later comparison, sum and format. *)
Definition relative_change (c p : float) : result float :=
  if c - p =? 0 then Ok 0 else truediv (c - p) p.

(** The loop of lines 151-155 over the keys still to visit. *)
Fixpoint diff_from (coins : list string) (curr_oi prev_oi oi_diff : dict float)
  : result (dict float) :=
  match coins with
  | [] => Ok oi_diff
  | coin :: rest =>
      c <- dict_item coin curr_oi ;;
      p <- dict_item coin prev_oi ;;
      x <- relative_change c p ;;
      diff_from rest curr_oi prev_oi (dict_set coin x oi_diff)
  end.

Definition compute_diff (curr_oi prev_oi : dict float) : result (dict float) :=
  diff_from (keys curr_oi) curr_oi prev_oi [].

(** The three text buckets, kept as the lines appended to each: a line is
    a coin and its relative change. *)
Record buckets : Type := {
  top_dogs : list (string * float);
  gainers : list (string * float);
  losers : list (string * float)
}.

Definition no_buckets : buckets :=
  {| top_dogs := []; gainers := []; losers := [] |}.

(** [coin in ('ETH', 'BTC')] *)
Definition pinned (coin : string) : bool :=
  String.eqb coin "ETH" || String.eqb coin "BTC".

(** One iteration of the loop of lines 163-169; [oi_diff[coin]] is the
    value [x] stored with [coin]. *)
Definition classify_step (mean std : float) (b : buckets) (item : string * float)
  : buckets :=
  let (coin, x) := item in
  if pinned coin then
    {| top_dogs := top_dogs b ++ [(coin, x)]; gainers := gainers b; losers := losers b |}
  else if mean + std <=? x then
    {| top_dogs := top_dogs b; gainers := gainers b ++ [(coin, x)]; losers := losers b |}
  else if x <=? mean - std then
    {| top_dogs := top_dogs b; gainers := gainers b; losers := losers b ++ [(coin, x)] |}
  else b.

Definition classify (mean std : float) (oi_diff : dict float) : buckets :=
  fold_left (classify_step mean std) oi_diff no_buckets.

(** [msg.replace(c, '\\' + c)] for a one-character [c]. *)
Fixpoint escape (c : Ascii.ascii) (s : string) : string :=
  match s with
  | EmptyString => EmptyString
  | String a rest =>
      if Ascii.eqb a c then String "\"%char (String a (escape c rest))
      else String a (escape c rest)
  end.

(** The durable snapshot file and the messages delivered so far. *)
Record world : Type := {
  snapshot : option (dict float);
  outbox : list (string * string)
}.

Section Notifier.

(** [statistics.mean] and [statistics.stdev] on data they accept, and
    the format [f'{x:.2%}'], all of the Python library. *)
Variable mean_of : list float -> float.
Variable stdev_of : list float -> float.
Variable format_pct : float -> string.

(** [statistics.mean] raises on no data. *)
Definition statistics_mean (data : list float) : result float :=
  match data with
  | [] => Raise StatisticsError
  | _ :: _ => Ok (mean_of data)
  end.

(** [statistics.stdev] raises on fewer than two data points. *)
Definition statistics_stdev (data : list float) : result float :=
  if (List.length data <? 2)%nat then Raise StatisticsError
  else Ok (stdev_of data).

(** Lines 150-169: the changes, their mean and deviation, the buckets. *)
Definition classification (curr_oi prev_oi : dict float) : result buckets :=
  oi_diff <- compute_diff curr_oi prev_oi ;;
  oi_change_mean <- statistics_mean (values oi_diff) ;;
  oi_std_dev <- statistics_stdev (values oi_diff) ;;
  Ok (classify oi_change_mean oi_std_dev oi_diff).

(** The text of a bucket: one [f'{coin} : {change:.2%}%0A'] per line. *)
Definition render (lines : list (string * float)) : string :=
  String.concat ""
    (map (fun item => fst item ++ " : " ++ format_pct (snd item) ++ "%0A") lines).

(** Lines 175-176. *)
Definition message (b : buckets) : string :=
  let msg :=
    "*-------------------*%0A" ++ render (top_dogs b) ++ "%0A"
      ++ render (gainers b) ++ "%0A" ++ render (losers b)
      ++ "*-------------------*" in
  escape "."%char (escape "-"%char msg).

(** [send_tg] (lines 136-179).  [updates] lists the chat ids of the
    updates the channel returns; [resp['result'][0]] raises on none.  The
    two calls to the channel are otherwise taken to succeed. *)
Definition send_tg (updates : list string) (curr_oi : dict float) (w : world)
  : world * result unit :=
  match snapshot w with
  | None => (w, Raise FileNotFoundError)
  | Some prev_oi =>
      let w1 := {| snapshot := Some curr_oi; outbox := outbox w |} in
      match classification curr_oi prev_oi with
      | Raise e => (w1, Raise e)
      | Ok b =>
          match updates with
          | [] => (w1, Raise IndexError)
          | chat_id :: _ =>
              ({| snapshot := Some curr_oi;
                  outbox := outbox w ++ [(chat_id, message b)] |}, Ok tt)
          end
      end
  end.

(** [main] (lines 182-186), after the watchlist has fixed the tasks. *)
Definition main (tasks : list (outcome response)) (updates : list string) (w : world)
  : world * outcome unit :=
  match oi tasks with
  | Returned curr_oi =>
      let (w', r) := send_tg updates curr_oi w in (w', outcome_of_result r)
  | Raised e => (w, Raised e)
  | Exited => (w, Exited)
  end.

End Notifier.

(** ** Listings and tickers *)

(** A scalar of a decoded JSON body. *)
Inductive jval : Type :=
| JNull
| JBool (b : bool)
| JNum (x : float)
| JStr (s : string).

(** The part of a decoded body the adapters read: the listings it holds,
    by key; a key can hold [null] instead of a list. *)
Definition body (A : Type) : Type := dict (option (list A)).

(** [resp[key]], to be iterated: a missing key raises [KeyError], and
    [for ... in None] raises [TypeError]. *)
Definition listing_of {A : Type} (key : string) (resp : body A) : result (list A) :=
  match dict_get key resp with
  | None => Raise (KeyError key)
  | Some None => Raise TypeError
  | Some (Some items) => Ok items
  end.

(** The truth value of a scalar, as [and] tests it. *)
Definition truthy (v : jval) : bool :=
  match v with
  | JNull => false
  | JBool b => b
  | JNum x => negb (x =? 0)
  | JStr s => negb (String.eqb s "")
  end.

(** [s.replace(old, new)] for a non-empty [old]: occurrences are replaced
    from the left and do not overlap; [skip] counts the characters of an
    occurrence still to pass. *)
Fixpoint replace_from (old new : string) (skip : nat) (s : string) : string :=
  match s with
  | EmptyString => EmptyString
  | String a rest =>
      match skip with
      | S k => replace_from old new k rest
      | O =>
          if prefix old s
          then new ++ replace_from old new (String.length old - 1) rest
          else String a (replace_from old new 0 rest)
      end
  end.

Definition str_replace (old new s : string) : string := replace_from old new 0 s.

(** [sub in s] *)
Fixpoint contains (sub s : string) : bool :=
  prefix sub s
  || match s with
     | EmptyString => false
     | String _ rest => contains sub rest
     end.

(** ** The watchlist, [bitget_perps] (lines 39-52) *)

(** A Python set of strings; the program only tests membership. *)
Definition coin_set : Type := list string.

(** [coin in s] *)
Definition set_in (coin : string) (s : coin_set) : bool :=
  existsb (String.eqb coin) s.

(** [s.add(coin)] *)
Definition set_add (coin : string) (s : coin_set) : coin_set :=
  if set_in coin s then s else (s ++ [coin])%list.

(** The loop of lines 48-50; a contract is a JSON object with string
    fields. *)
Fixpoint add_base_coins (data : list (dict string)) (bitget_base_coins : coin_set)
  : result coin_set :=
  match data with
  | [] => Ok bitget_base_coins
  | perp :: rest =>
      quote <- dict_item "quoteCoin" perp ;;
      if String.eqb quote "USDT" then
        base <- dict_item "baseCoin" perp ;;
        add_base_coins rest (set_add base bitget_base_coins)
      else add_base_coins rest bitget_base_coins
  end.

Definition bitget_perps (resp : body (dict string)) : result coin_set :=
  data <- listing_of "data" resp ;;
  add_base_coins data [].

(** ** The bulk adapters, [get_oi_bybit] and [get_oi_ftx] (lines 75-110) *)

Section BulkAdapters.

(** Python's [float(s)] on a string; [None] stands for [ValueError]. *)
Variable py_float : string -> option float.

(** [float(v)] on a scalar. *)
Definition float_of (v : jval) : result float :=
  match v with
  | JNull => Raise TypeError
  | JBool b => Ok (if b then 1 else 0)
  | JNum x => Ok x
  | JStr s =>
      match py_float s with
      | Some x => Ok x
      | None => Raise ValueError
      end
  end.

(** The loop of lines 86-89; [.replace] needs a string. *)
Fixpoint bybit_entries (bitget_base_coins : coin_set) (tickers : list (dict jval))
  : result (list (dict float)) :=
  match tickers with
  | [] => Ok []
  | perp :: rest =>
      v <- dict_item "symbol" perp ;;
      match v with
      | JStr sym =>
          let coin := str_replace "USDT" "" sym in
          if contains "USDT" sym && set_in coin bitget_base_coins then
            o <- dict_item "open_interest" perp ;;
            x <- float_of o ;;
            bybit_oi <- bybit_entries bitget_base_coins rest ;;
            Ok ([(coin, x)] :: bybit_oi)
          else bybit_entries bitget_base_coins rest
      | _ => Raise AttributeError
      end
  end.

Definition get_oi_bybit (resp : body (dict jval)) (bitget_base_coins : coin_set)
  : result response :=
  tickers <- listing_of "result" resp ;;
  bybit_oi <- bybit_entries bitget_base_coins tickers ;;
  Ok (RDict [("bybit", VList bybit_oi)]).

(** The loop of lines 105-108; a coin that is not a string is in no set
    of strings. *)
Fixpoint ftx_entries (bitget_base_coins : coin_set) (futures : list (dict jval))
  : result (list (dict float)) :=
  match futures with
  | [] => Ok []
  | perp :: rest =>
      coin <- dict_item "underlying" perp ;;
      perpetual <- dict_item "perpetual" perp ;;
      match coin with
      | JStr c =>
          if truthy perpetual && set_in c bitget_base_coins then
            o <- dict_item "openInterest" perp ;;
            x <- float_of o ;;
            ftx_oi <- ftx_entries bitget_base_coins rest ;;
            Ok ([(c, x)] :: ftx_oi)
          else ftx_entries bitget_base_coins rest
      | _ => ftx_entries bitget_base_coins rest
      end
  end.

Definition get_oi_ftx (resp : body (dict jval)) (bitget_base_coins : coin_set)
  : result response :=
  futures <- listing_of "result" resp ;;
  ftx_oi <- ftx_entries bitget_base_coins futures ;;
  Ok (RDict [("ftx", VList ftx_oi)]).

(** ** The tasks of [oi] (lines 120-131) *)

(** The test of lines 125-126; [and] reads a field only when the tests
    before it hold. *)
Definition wanted (bitget_base_coins : coin_set) (perp : dict string) : result bool :=
  contract <- dict_item "contractType" perp ;;
  if String.eqb contract "PERPETUAL" then
    quote <- dict_item "quoteAsset" perp ;;
    if String.eqb quote "USDT" then
      base <- dict_item "baseAsset" perp ;;
      Ok (set_in base bitget_base_coins)
    else Ok false
  else Ok false.

(** The arguments [(symbol, coin)] of the queries line 127 creates. *)
Fixpoint binance_queries (bitget_base_coins : coin_set) (symbols : list (dict string))
  : result (list (string * string)) :=
  match symbols with
  | [] => Ok []
  | perp :: rest =>
      w <- wanted bitget_base_coins perp ;;
      if w then
        symbol <- dict_item "symbol" perp ;;
        base <- dict_item "baseAsset" perp ;;
        queries <- binance_queries bitget_base_coins rest ;;
        Ok ((symbol, base) :: queries)
      else binance_queries bitget_base_coins rest
  end.

(** The decoded answers of the exchanges and of the channel to one run. *)
Record session : Type := {
  bitget_contracts : body (dict string);
  binance_symbols : body (dict string);
  binance_oi : string -> http_response;
  bybit_tickers : body (dict jval);
  ftx_futures : body (dict jval);
  channel_updates : list string
}.

(** What the tasks of lines 127-130 end with, in the order of [tasks]. *)
Definition oi_tasks (s : session) (bitget_base_coins : coin_set)
  : result (list (outcome response)) :=
  symbols <- listing_of "symbols" (binance_symbols s) ;;
  queries <- binance_queries bitget_base_coins symbols ;;
  Ok (map (fun q => snd (get_oi_binance py_float (binance_oi s) (fst q) (snd q))) queries
        ++ [outcome_of_result (get_oi_bybit (bybit_tickers s) bitget_base_coins);
            outcome_of_result (get_oi_ftx (ftx_futures s) bitget_base_coins)])%list.

(** [oi] (lines 113-133) on the answers of a session. *)
Definition oi_session (s : session) (bitget_base_coins : coin_set) : outcome (dict float) :=
  match oi_tasks s bitget_base_coins with
  | Ok tasks => oi tasks
  | Raise e => Raised e
  end.

Variable mean_of : list float -> float.
Variable stdev_of : list float -> float.
Variable format_pct : float -> string.

(** [main] (lines 182-186) on the answers of a session. *)
Definition main_session (s : session) (w : world) : world * outcome unit :=
  match bitget_perps (bitget_contracts s) with
  | Raise e => (w, Raised e)
  | Ok bitget_base_coins =>
      match oi_tasks s bitget_base_coins with
      | Raise e => (w, Raised e)
      | Ok tasks => main mean_of stdev_of format_pct tasks (channel_updates s) w
      end
  end.

End BulkAdapters.

(** ** Notions used in the statements about the adapters and the run *)

(** A contract the loop adds: quoted in USDT, with this base coin. *)
Definition usdt_contract (coin : string) (perp : dict string) : Prop :=
  dict_get "quoteCoin" perp = Some "USDT" /\ dict_get "baseCoin" perp = Some coin.

(** A Bybit ticker that reports [x] for [coin]. *)
Definition bybit_reports (py_float : string -> option float) (watchlist : coin_set)
    (coin : string) (x : float) (perp : dict jval) : Prop :=
  exists sym o,
    dict_get "symbol" perp = Some (JStr sym)
    /\ contains "USDT" sym = true
    /\ str_replace "USDT" "" sym = coin
    /\ set_in coin watchlist = true
    /\ dict_get "open_interest" perp = Some o
    /\ float_of py_float o = Ok x.

(** An FTX future that reports [x] for [coin]. *)
Definition ftx_reports (py_float : string -> option float) (watchlist : coin_set)
    (coin : string) (x : float) (perp : dict jval) : Prop :=
  exists p o,
    dict_get "underlying" perp = Some (JStr coin)
    /\ dict_get "perpetual" perp = Some p
    /\ truthy p = true
    /\ set_in coin watchlist = true
    /\ dict_get "openInterest" perp = Some o
    /\ float_of py_float o = Ok x.

(** A symbol of the Binance listing that [oi] queries. *)
Definition queried (watchlist : coin_set) (symbol coin : string) (perp : dict string) : Prop :=
  dict_get "contractType" perp = Some "PERPETUAL"
  /\ dict_get "quoteAsset" perp = Some "USDT"
  /\ dict_get "baseAsset" perp = Some coin
  /\ set_in coin watchlist = true
  /\ dict_get "symbol" perp = Some symbol.

(** Whether every [c] of [s] comes right after a backslash; [after] tells
    whether [s] itself comes right after one. *)
Fixpoint escaped_from (c : ascii) (after : bool) (s : string) : bool :=
  match s with
  | EmptyString => true
  | String a rest =>
      (if Ascii.eqb a c then after else true)
      && escaped_from c (Ascii.eqb a "\"%char) rest
  end.

(** [float] on the strings of the answers below. *)
Definition example_float (s : string) : option float :=
  if String.eqb s "1000" then Some 1000
  else if String.eqb s "500" then Some 500
  else None.

(** A run on three coins: Binance lists BTC and ETH, Bybit SOL, FTX
    nothing of the watchlist. *)
Definition example_session : session :=
  {| bitget_contracts :=
       [("data", Some [[("baseCoin", "BTC"); ("quoteCoin", "USDT")];
                       [("baseCoin", "ETH"); ("quoteCoin", "USDT")];
                       [("baseCoin", "SOL"); ("quoteCoin", "USDT")]])];
     binance_symbols :=
       [("symbols",
         Some [[("symbol", "BTCUSDT"); ("contractType", "PERPETUAL");
                ("quoteAsset", "USDT"); ("baseAsset", "BTC")];
               [("symbol", "ETHUSDT"); ("contractType", "PERPETUAL");
                ("quoteAsset", "USDT"); ("baseAsset", "ETH")];
               [("symbol", "XRPUSDT"); ("contractType", "PERPETUAL");
                ("quoteAsset", "USDT"); ("baseAsset", "XRP")]])];
     binance_oi :=
       (fun symbol =>
          if String.eqb symbol "BTCUSDT"
          then {| status := 200; json := Some [("openInterest", "1000")] |}
          else {| status := 200; json := Some [("openInterest", "500")] |});
     bybit_tickers :=
       [("result", Some [[("symbol", JStr "SOLUSDT"); ("open_interest", JNum 200)];
                         [("symbol", JStr "DOGEUSDT"); ("open_interest", JNum 9)]])];
     ftx_futures :=
       [("result", Some [[("underlying", JStr "DOGE"); ("perpetual", JBool true);
                          ("openInterest", JNum 3)]])];
     channel_updates := ["42"] |}.

(** The same run with the query for BTC rate-limited. *)
Definition limited_session : session :=
  {| bitget_contracts := bitget_contracts example_session;
     binance_symbols := binance_symbols example_session;
     binance_oi :=
       (fun symbol =>
          if String.eqb symbol "BTCUSDT"
          then {| status := 429; json := Some [("code", "-1003")] |}
          else {| status := 200; json := Some [("openInterest", "500")] |});
     bybit_tickers := bybit_tickers example_session;
     ftx_futures := ftx_futures example_session;
     channel_updates := ["42"] |}.

(** ** Auxiliary notions used in the statements *)

(** A running total [o] after the further contributions [xs]. *)
Definition extend (o : option float) (xs : list float) : option float :=
  match xs with
  | [] => o
  | _ :: _ =>
      Some (fold_left PrimFloat.add xs (match o with Some t => t | None => 0 end))
  end.

(** Whether an output merges does not depend on the totals so far. *)
Definition merges (r : response) : bool := is_ok (merge_response [] r).

(** The tests of lines 164-168 as one predicate per bucket. *)
Definition to_top_dogs (item : string * float) : bool := pinned (fst item).

Definition to_gainers (mean std : float) (item : string * float) : bool :=
  negb (pinned (fst item)) && (mean + std <=? snd item).

Definition to_losers (mean std : float) (item : string * float) : bool :=
  negb (pinned (fst item)) && negb (mean + std <=? snd item)
  && (snd item <=? mean - std).

(** Classes of the binary64 numbers as the specification sees them. *)
Definition sf_is_zero (x : spec_float) : bool :=
  match x with S754_zero _ => true | _ => false end.

Definition sf_is_finite (x : spec_float) : bool :=
  match x with S754_zero _ | S754_finite _ _ _ => true | _ => false end.

(** * Properties *)

(** ** Dictionaries *)

Section DictFacts.

Context {V : Type}.
Implicit Types (d : dict V) (k : string) (v : V).

Lemma dict_get_set_same k v d : dict_get k (dict_set k v d) = Some v.
Proof.
  induction d as [|[k' v'] rest IH]; simpl.
  - now rewrite String.eqb_refl.
  - destruct (String.eqb k k') eqn:E; simpl; rewrite E; auto.
Qed.

Lemma dict_get_set_other k k' v d :
  String.eqb k k' = false -> dict_get k (dict_set k' v d) = dict_get k d.
Proof.
  intros Hne. induction d as [|[k0 v0] rest IH]; simpl.
  - now rewrite Hne.
  - destruct (String.eqb k' k0) eqn:E; simpl.
    + apply String.eqb_eq in E. subst. now rewrite Hne.
    + now rewrite IH.
Qed.

Lemma dict_get_set k k' v d :
  dict_get k (dict_set k' v d)
  = if String.eqb k k' then Some v else dict_get k d.
Proof.
  destruct (String.eqb k k') eqn:E.
  - apply String.eqb_eq in E. subst. apply dict_get_set_same.
  - now apply dict_get_set_other.
Qed.

Lemma dict_get_in_keys k d : dict_get k d <> None <-> In k (keys d).
Proof.
  induction d as [|[k' v'] rest IH]; simpl.
  - tauto.
  - destruct (String.eqb k k') eqn:E.
    + apply String.eqb_eq in E. subst. split; [auto | discriminate].
    + apply String.eqb_neq in E. rewrite IH. split; [auto | intros [H|H]; [congruence | assumption]].
Qed.

Lemma dict_get_none_keys k d : dict_get k d = None <-> ~ In k (keys d).
Proof.
  rewrite <- dict_get_in_keys. destruct (dict_get k d); split; intros H.
  - discriminate.
  - exfalso. apply H. discriminate.
  - intros Hne. now apply Hne.
  - reflexivity.
Qed.

Lemma keys_dict_set_in k v d : In k (keys d) -> keys (dict_set k v d) = keys d.
Proof.
  induction d as [|[k' v'] rest IH]; simpl; [tauto|].
  intros Hin. destruct (String.eqb k k') eqn:E; simpl; [reflexivity|].
  apply String.eqb_neq in E. f_equal. apply IH. destruct Hin; congruence.
Qed.

Lemma keys_dict_set_new k v d : ~ In k (keys d) -> keys (dict_set k v d) = (keys d ++ [k])%list.
Proof.
  induction d as [|[k' v'] rest IH]; simpl; [reflexivity|].
  intros Hnin. destruct (String.eqb k k') eqn:E; simpl.
  - apply String.eqb_eq in E. subst. tauto.
  - f_equal. apply IH. tauto.
Qed.

Lemma dict_set_NoDup k v d : NoDup (keys d) -> NoDup (keys (dict_set k v d)).
Proof.
  intros Hnd. destruct (in_dec string_dec k (keys d)) as [Hin|Hnin].
  - now rewrite keys_dict_set_in.
  - rewrite keys_dict_set_new by assumption.
    apply NoDup_app; [assumption | repeat constructor; simpl; tauto |].
    intros x Hx [Hk|[]]. subst. contradiction.
Qed.

Lemma dict_get_In k v d : dict_get k d = Some v -> In (k, v) d.
Proof.
  induction d as [|[k' v'] rest IH]; simpl; [discriminate|].
  destruct (String.eqb k k') eqn:E.
  - apply String.eqb_eq in E. intros [= ->]. subst. now left.
  - auto.
Qed.


End DictFacts.

(** ** Binary64 facts *)

Lemma SFeqb_zero_r x s : SFeqb x (S754_zero s) = sf_is_zero x.
Proof. destruct x as [sx|sx| |sx m e]; try destruct sx; reflexivity. Qed.

Lemma eqb_zero x : (x =? 0) = sf_is_zero (Prim2SF x).
Proof. rewrite eqb_spec. apply SFeqb_zero_r. Qed.

Lemma is_finite_spec x : is_finite x = sf_is_finite (Prim2SF x).
Proof.
  unfold is_finite, is_nan, is_infinity. rewrite !eqb_spec, abs_spec.
  change (Prim2SF infinity) with (S754_infinity false).
  destruct (Prim2SF x) as [s|s| |s m e]; try destruct s; try reflexivity.
  - unfold SFeqb, SFcompare, SFabs. rewrite Z.compare_refl, Pos.compare_cont_refl. reflexivity.
  - unfold SFeqb, SFcompare, SFabs. rewrite Z.compare_refl, Pos.compare_cont_refl.  reflexivity.
Qed.

(** Comparing with a zero does not look at which zero it is. *)
Lemma eqb_zero_r x y : (y =? 0) = true -> (x =? y) = (x =? 0).
Proof.
  rewrite eqb_zero, (eqb_spec x y), (eqb_spec x 0). intros Hy.
  destruct (Prim2SF y) as [s| | |]; try discriminate.
  change (Prim2SF 0) with (S754_zero false). now rewrite !SFeqb_zero_r.
Qed.

(** Subtracting a zero from a number that is not zero leaves the number. *)
Lemma sub_zero_r x y : (y =? 0) = true -> (x =? 0) = false -> x - y = x.
Proof.
  rewrite !eqb_zero. intros Hy Hx. apply Prim2SF_inj. rewrite sub_spec.
  destruct (Prim2SF y) as [sy| | |]; try discriminate.
  destruct (Prim2SF x) as [sx|sx| |sx m e]; try discriminate; reflexivity.
Qed.

(** The difference of two zeros is a zero. *)
Lemma sub_zeros x y : (x =? 0) = true -> (y =? 0) = true -> (x - y =? 0) = true.
Proof.
  rewrite !eqb_zero, sub_spec. intros Hx Hy.
  destruct (Prim2SF x) as [sx| | |]; try discriminate.
  destruct (Prim2SF y) as [sy| | |]; try discriminate.
  now destruct sx, sy.
Qed.

(** *** Sums of two contributions *)

Lemma SFadd_comm x y : SF64add x y = SF64add y x.
Proof.
  destruct x as [sx|sx| |sx mx ex], y as [sy|sy| |sy my ey];
    try destruct sx; try destruct sy; try reflexivity;
    unfold SF64add, SFadd; now rewrite Z.min_comm, Z.add_comm.
Qed.

(** The total of two contributions does not depend on their order. *)
Lemma add_from_zero_comm a b : 0 + a + b = 0 + b + a.
Proof.
  apply Prim2SF_inj. rewrite !add_spec. change (Prim2SF 0) with (S754_zero false).
  destruct (Prim2SF a) as [sa|sa| |sa ma ea], (Prim2SF b) as [sb|sb| |sb mb eb];
    try destruct sa; try destruct sb; try reflexivity;
    apply SFadd_comm.
Qed.

(** *** The difference of two finite numbers is zero only when they are equal *)

#[local] Open Scope Z_scope.

Lemma digits2_pos_lower q : 2 ^ (Zpos (digits2_pos q) - 1) <= Zpos q.
Proof.
  induction q as [q IH|q IH|]; simpl digits2_pos.
  - rewrite Pos2Z.inj_succ. replace (Z.succ (Zpos (digits2_pos q)) - 1)
      with (Z.succ (Zpos (digits2_pos q) - 1)) by lia.
    rewrite Z.pow_succ_r by lia. lia.
  - rewrite Pos2Z.inj_succ. replace (Z.succ (Zpos (digits2_pos q)) - 1)
      with (Z.succ (Zpos (digits2_pos q) - 1)) by lia.
    rewrite Z.pow_succ_r by lia. lia.
  - simpl. lia.
Qed.

Lemma iter_xO_digits m d : digits2_pos (Pos.iter xO m d) = (digits2_pos m + d)%positive.
Proof.
  induction d as [|d IH] using Pos.peano_ind.
  - simpl. lia.
  - rewrite Pos.iter_succ. simpl. rewrite IH. lia.
Qed.

Lemma iter_xO_value m d : Zpos (Pos.iter xO m d) = Zpos m * 2 ^ Zpos d.
Proof.
  induction d as [|d IH] using Pos.peano_ind.
  - simpl. lia.
  - rewrite Pos.iter_succ, Pos2Z.inj_succ, Z.pow_succ_r by lia.
    rewrite Pos2Z.inj_xO, IH. lia.
Qed.

(** One shift to the right halves a positive mantissa. *)
Lemma shr_1_lower mrs k :
  0 <= k -> 2 ^ (1 + k) <= shr_m mrs -> 2 ^ k <= shr_m (shr_1 mrs).
Proof.
  intros Hk. destruct mrs as [m r s]. simpl shr_m at 1.
  rewrite Z.pow_add_r by lia. change (2 ^ 1) with 2.
  assert (0 < 2 ^ k) by (apply Z.pow_pos_nonneg; lia).
  intros Hm. unfold shr_1.
  destruct m as [|[q|q|]|q]; simpl; try lia.
Qed.

Lemma iter_shr_1_lower p : forall mrs k,
  0 <= k -> 2 ^ (Zpos p + k) <= shr_m mrs -> 2 ^ k <= shr_m (iter_pos shr_1 p mrs).
Proof.
  induction p as [p IH|p IH|]; intros mrs k Hk Hm; simpl iter_pos.
  - apply IH; [assumption|]. apply IH; [lia|]. apply shr_1_lower; [lia|].
    replace (1 + (Zpos p + (Zpos p + k))) with (Zpos p~1 + k) by lia. assumption.
  - apply IH; [assumption|]. apply IH; [lia|].
    replace (Zpos p + (Zpos p + k)) with (Zpos p~0 + k) by lia. assumption.
  - apply shr_1_lower; assumption.
Qed.

Lemma shr_record_of_loc_m m l : shr_m (shr_record_of_loc m l) = m.
Proof. destruct l as [|[| |]]; reflexivity. Qed.

(** Rounding a positive mantissa whose exponent is at least [emin] keeps
    a positive mantissa. *)
Lemma shr_fexp_positive m e l :
  0 < m -> emin <= e ->
  0 < shr_m (fst (shr_fexp prec emax m e l))
  /\ emin <= snd (shr_fexp prec emax m e l).
Proof.
  intros Hm He. unfold shr_fexp, shr.
  destruct (fexp prec emax (Zdigits2 m + e) - e) as [|n|n] eqn:En; simpl;
    rewrite ?shr_record_of_loc_m; try (split; lia).
  destruct m as [|q|q]; try lia. simpl Zdigits2 in En.
  unfold fexp in En. unfold SpecFloat.emin in *.
  assert (Hn : Zpos n = Zpos (digits2_pos q) - prec) by lia.
  split; [|lia].
  assert (H1 : 2 ^ 0 <= shr_m (iter_pos shr_1 n (shr_record_of_loc (Zpos q) l))).
  { apply iter_shr_1_lower; [lia|]. rewrite shr_record_of_loc_m.
    eapply Z.le_trans; [|apply digits2_pos_lower].
    apply Z.pow_le_mono_r; [lia|]. unfold prec in Hn. lia. }
  simpl in H1. lia.
Qed.

Lemma round_nearest_even_lower m l : 0 < m -> 0 < round_nearest_even m l.
Proof.
  intros Hm. unfold round_nearest_even.
  destruct l as [|[| |]]; try lia. destruct (Z.even m); lia.
Qed.

Lemma binary_round_aux_nonzero s m e l :
  0 < m -> emin <= e ->
  sf_is_zero (binary_round_aux prec emax s m e l) = false.
Proof.
  intros Hm He. unfold binary_round_aux.
  destruct (shr_fexp_positive m e l Hm He) as [H1 H1e].
  destruct (shr_fexp prec emax m e l) as [mrs' e']. simpl in H1, H1e.
  pose proof (round_nearest_even_lower (shr_m mrs') (loc_of_shr_record mrs') H1) as H2.
  destruct (shr_fexp_positive _ e' loc_Exact H2 H1e) as [H3 _].
  destruct (shr_fexp prec emax _ e' loc_Exact) as [mrs'' e'']. simpl in H3.
  destruct (shr_m mrs''); try lia.
  now destruct (e'' <=? emax - prec).
Qed.

Lemma binary_normalize_nonzero z e :
  z <> 0 -> emin <= e ->
  sf_is_zero (binary_normalize prec emax z e false) = false.
Proof.
  intros Hz He.
  assert (Hround : forall s q, sf_is_zero (binary_round prec emax s q e) = false).
  { intros s q. unfold binary_round, shl_align.
    assert (Hf : emin <= fexp prec emax (Zpos (digits2_pos q) + e))
      by (unfold fexp; lia).
    destruct (fexp prec emax (Zpos (digits2_pos q) + e) - e);
      apply binary_round_aux_nonzero; lia. }
  destruct z; [congruence | apply Hround | apply Hround].
Qed.

Lemma bounded_emin m e : bounded prec emax m e = true -> emin <= e.
Proof.
  unfold bounded, canonical_mantissa, fexp. intros H.
  apply andb_true_iff in H. destruct H as [H _]. apply Z.eqb_eq in H. lia.
Qed.

(** Two canonical mantissas that are equal once aligned are the same. *)
Lemma aligned_canonical mx ex my ey :
  canonical_mantissa prec emax mx ex = true ->
  canonical_mantissa prec emax my ey = true ->
  fst (shl_align mx ex (Z.min ex ey)) = fst (shl_align my ey (Z.min ex ey)) ->
  mx = my /\ ex = ey.
Proof.
  unfold canonical_mantissa, shl_align. intros Hx Hy.
  apply Z.eqb_eq in Hx. apply Z.eqb_eq in Hy. unfold fexp in Hx, Hy.
  destruct (Z.min ex ey - ex) as [|d|d] eqn:Edx;
    destruct (Z.min ex ey - ey) as [|d'|d'] eqn:Edy; simpl; try lia;
    intros Ha; subst; rewrite ?iter_xO_digits, ?Pos2Z.inj_add in *; lia.
Qed.

Lemma SFeqb_refl_finite s m e : SFeqb (S754_finite s m e) (S754_finite s m e) = true.
Proof.
  unfold SFeqb, SFcompare. rewrite Z.compare_refl, Pos.compare_cont_refl. now destruct s.
Qed.

Lemma SFeqb_finite_eq s1 m1 e1 s2 m2 e2 :
  SFeqb (S754_finite s1 m1 e1) (S754_finite s2 m2 e2) = true ->
  s1 = s2 /\ m1 = m2 /\ e1 = e2.
Proof.
  unfold SFeqb, SFcompare.
  destruct s1, s2; try discriminate;
    destruct (e1 ?= e2) eqn:Ee; try discriminate;
    apply Z.compare_eq in Ee;
    destruct (Pos.compare_cont Eq m1 m2) eqn:Em; try discriminate;
    apply Pos.compare_eq in Em; auto.
Qed.

(** Subtraction on valid finite numbers. *)
Lemma SFsub_zero_iff x y :
  valid_binary x = true -> valid_binary y = true ->
  sf_is_finite x = true -> sf_is_finite y = true ->
  sf_is_zero (SF64sub x y) = SFeqb x y.
Proof.
  intros Vx Vy Fx Fy.
  destruct x as [sx|sx| |sx mx ex]; try discriminate;
    destruct y as [sy|sy| |sy my ey]; try discriminate.
  - now destruct sx, sy.
  - now destruct sy.
  - now destruct sx.
  - unfold SF64sub, SFsub. simpl in Vx, Vy.
    destruct (SFeqb (S754_finite sx mx ex) (S754_finite sy my ey)) eqn:E.
    + apply SFeqb_finite_eq in E. destruct E as [-> [-> ->]].
      now rewrite Z.sub_diag.
    + apply binary_normalize_nonzero.
      2:{ apply bounded_emin in Vx. apply bounded_emin in Vy. lia. }
      intros Hz. apply andb_true_iff in Vx, Vy.
      destruct Vx as [Cx _], Vy as [Cy _].
      assert (Hs : sx = sy /\
                   fst (shl_align mx ex (Z.min ex ey)) = fst (shl_align my ey (Z.min ex ey))).
      { unfold cond_Zopp in Hz. destruct sx, sy; split; try reflexivity; lia. }
      destruct Hs as [-> Ha].
      destruct (aligned_canonical mx ex my ey Cx Cy Ha) as [-> ->].
      rewrite SFeqb_refl_finite in E. discriminate.
Qed.

#[local] Close Scope Z_scope.

(** On finite floats [c - p == 0] is [c == p]. *)
Lemma sub_eqb_zero c p :
  is_finite c = true -> is_finite p = true -> (c - p =? 0) = (c =? p).
Proof.
  intros Fc Fp. rewrite is_finite_spec in Fc, Fp.
  rewrite eqb_zero, sub_spec, (eqb_spec c p).
  apply SFsub_zero_iff; auto using Prim2SF_valid.
Qed.

(** ** The aggregator keeps, per coin, the sum of its contributions *)

Lemma extend_app o xs ys : extend o (xs ++ ys)%list = extend (extend o xs) ys.
Proof.
  destruct xs as [|x xs]; [reflexivity|].
  destruct ys as [|y ys].
  - now rewrite app_nil_r.
  - simpl. now rewrite fold_left_app.
Qed.

Lemma extend_none_total xs : extend None xs = total xs.
Proof. now destruct xs. Qed.

Lemma accumulate_get coin key x curr_oi :
  dict_get coin (accumulate curr_oi key x)
  = extend (dict_get coin curr_oi) (if String.eqb coin key then [x] else []).
Proof.
  unfold accumulate. rewrite dict_get_set.
  destruct (String.eqb coin key) eqn:E; [|reflexivity].
  apply String.eqb_eq in E. subst. unfold dict_get_default. simpl.
  now destruct (dict_get key curr_oi).
Qed.

Lemma add_syms_get coin syms : forall curr_oi m,
  add_syms syms curr_oi = Ok m ->
  dict_get coin m
  = extend (dict_get coin curr_oi) (flat_map (sym_contribution coin) syms).
Proof.
  induction syms as [|sym rest IH]; simpl; intros curr_oi m H.
  - now injection H as <-.
  - destruct sym as [|[key2 x] tl]; simpl in H; [discriminate|].
    unfold dict_item in H. simpl in H. rewrite String.eqb_refl in H. simpl in H.
    apply IH in H. rewrite H, accumulate_get, extend_app. reflexivity.
Qed.

Lemma merge_response_get coin r curr_oi m :
  merge_response curr_oi r = Ok m ->
  dict_get coin m = extend (dict_get coin curr_oi) (contributions_of coin r).
Proof.
  unfold merge_response. destruct r as [|d|e]; simpl.
  - now intros [= <-].
  - destruct d as [|[key1 v] tl]; simpl; [now intros [= <-]|].
    unfold dict_item. simpl. rewrite String.eqb_refl. simpl.
    destruct (is_source_tag key1), v as [x|syms]; try discriminate.
    + apply add_syms_get.
    + intros [= <-]. apply accumulate_get.
  - discriminate.
Qed.

Lemma aggregate_from_get coin responses : forall curr_oi m,
  aggregate_from responses curr_oi = Ok m ->
  dict_get coin m = extend (dict_get coin curr_oi) (contributions coin responses).
Proof.
  induction responses as [|r rest IH]; simpl; intros curr_oi m H.
  - now injection H as <-.
  - destruct (merge_response curr_oi r) as [c1|e] eqn:E; simpl in H; [|discriminate].
    unfold contributions in *. simpl. rewrite extend_app.
    rewrite (IH _ _ H). f_equal. now apply merge_response_get.
Qed.

Lemma add_syms_ok syms : forall curr_oi,
  is_ok (add_syms syms curr_oi) = forallb (fun sym => is_ok (first_key sym)) syms.
Proof.
  induction syms as [|sym rest IH]; simpl; intros curr_oi; [reflexivity|].
  destruct sym as [|[key2 x] tl]; simpl; [reflexivity|].
  unfold dict_item. simpl. rewrite String.eqb_refl. simpl. apply IH.
Qed.

Lemma merge_response_ok r curr_oi : is_ok (merge_response curr_oi r) = merges r.
Proof.
  unfold merges, merge_response. destruct r as [|d|e]; simpl; try reflexivity.
  destruct d as [|[key1 v] tl]; simpl; [reflexivity|].
  unfold dict_item. simpl. rewrite String.eqb_refl. simpl.
  destruct (is_source_tag key1), v as [x|syms]; try reflexivity.
  now rewrite !add_syms_ok.
Qed.

Lemma aggregate_from_ok responses : forall curr_oi,
  is_ok (aggregate_from responses curr_oi) = forallb merges responses.
Proof.
  induction responses as [|r rest IH]; simpl; intros curr_oi; [reflexivity|].
  rewrite <- (merge_response_ok r curr_oi).
  destruct (merge_response curr_oi r); simpl; auto.
Qed.

Lemma well_formed_merges r : well_formed r -> merges r = true.
Proof.
  unfold merges, merge_response. destruct r as [|d|e]; simpl; try tauto.
  destruct d as [|[key1 v] tl]; simpl; [reflexivity|].
  unfold dict_item. simpl. rewrite String.eqb_refl. simpl.
  destruct v as [x|syms], tl as [|item tl]; try tauto.
  - now intros ->.
  - intros [-> Hone]. rewrite add_syms_ok. apply forallb_forall.
    intros sym Hin. rewrite Forall_forall in Hone. specialize (Hone sym Hin).
    destruct sym as [|[? ?] ?]; [discriminate|reflexivity].
Qed.

Lemma is_ok_true {A : Type} (r : result A) : is_ok r = true -> exists a, r = Ok a.
Proof. destruct r; [eauto | discriminate]. Qed.

Lemma total_none xs : total xs = None <-> xs = [].
Proof. destruct xs; simpl; split; congruence. Qed.

(** C1: on the outputs the adapters produce, the aggregator returns a
    mapping in which a coin has an entry exactly when some output reports
    it, and the entry is the sum, in list order and from [0], of that
    coin's contributions in the scalar-shaped and list-shaped outputs; a
    coin no output reports has no entry. *)
Theorem aggregate_oi_totals (responses : list response) :
  Forall well_formed responses ->
  exists curr_oi,
    aggregate_oi responses = Ok curr_oi
    /\ (forall coin, dict_get coin curr_oi = total (contributions coin responses))
    /\ (forall coin, In coin (keys curr_oi) <-> contributions coin responses <> [])
    /\ (forall coin, contributions coin responses = [] -> dict_get coin curr_oi = None).
Proof.
  intros Hwf.
  assert (Hok : is_ok (aggregate_oi responses) = true).
  { unfold aggregate_oi. rewrite aggregate_from_ok. apply forallb_forall.
    intros r Hin. apply well_formed_merges. rewrite Forall_forall in Hwf. auto. }
  apply is_ok_true in Hok. destruct Hok as [curr_oi Hagg].
  exists curr_oi. split; [assumption|].
  assert (Hget : forall coin, dict_get coin curr_oi = total (contributions coin responses)).
  { intros coin. unfold aggregate_oi in Hagg.
    rewrite (aggregate_from_get coin _ _ _ Hagg). simpl. apply extend_none_total. }
  split; [assumption|]. split.
  - intros coin. rewrite <- dict_get_in_keys, Hget, total_none. tauto.
  - intros coin Hnil. rewrite Hget, Hnil. reflexivity.
Qed.

(** The example of the specification: scalar [{BTC: 100}] and list
    [[{BTC: 50}]]. *)
Lemma aggregate_oi_totals_witness :
  exists curr_oi,
    aggregate_oi [RDict [("BTC", VNum 100)]; RDict [("bybit", VList [[("BTC", 50)]])]]
    = Ok curr_oi
    /\ (forall coin,
          dict_get coin curr_oi
          = total (contributions coin
                     [RDict [("BTC", VNum 100)]; RDict [("bybit", VList [[("BTC", 50)]])]]))
    /\ (forall coin,
          In coin (keys curr_oi)
          <-> contributions coin
                [RDict [("BTC", VNum 100)]; RDict [("bybit", VList [[("BTC", 50)]])]] <> [])
    /\ (forall coin,
          contributions coin
            [RDict [("BTC", VNum 100)]; RDict [("bybit", VList [[("BTC", 50)]])]] = [] ->
          dict_get coin curr_oi = None).
Proof.
  apply (aggregate_oi_totals
           [RDict [("BTC", VNum 100)]; RDict [("bybit", VList [[("BTC", 50)]])]]).
  repeat constructor; simpl; discriminate.
Defined.

Example aggregate_oi_sums_two_sources :
  aggregate_oi [RDict [("BTC", VNum 100)]; RDict [("bybit", VList [[("BTC", 50)]])]]
  = Ok [("BTC", 150)].
Proof. reflexivity. Qed.

Example aggregate_oi_unreported_coin_absent :
  r <- aggregate_oi [RDict [("BTC", VNum 100)]; RNone; RDict [("ftx", VList [])]] ;;
  Ok (dict_get "ETH" r)
  = Ok None.
Proof. reflexivity. Qed.

(** ** Order of the outputs *)

Lemma contributions_Permutation coin rs rs' :
  Permutation rs rs' -> Permutation (contributions coin rs) (contributions coin rs').
Proof. intros HP. unfold contributions. now apply Permutation_flat_map. Qed.

Lemma forallb_Permutation {A : Type} (f : A -> bool) l l' :
  Permutation l l' -> forallb f l = forallb f l'.
Proof.
  induction 1; simpl; try congruence.
  - now rewrite !andb_assoc, (andb_comm (f y)).
Qed.

Lemma total_Permutation_short (l l' : list float) :
  Permutation l l' -> (List.length l <= 2)%nat -> total l' = total l.
Proof.
  intros HP Hlen. destruct l as [|a [|b [|c l]]]; simpl in Hlen; try lia.
  - apply Permutation_nil in HP. now subst.
  - apply Permutation_length_1_inv in HP. now subst.
  - apply Permutation_length_2_inv in HP. destruct HP as [->| ->]; [reflexivity|].
    simpl. f_equal. apply add_from_zero_comm.
Qed.

Lemma aggregate_oi_get coin responses m :
  aggregate_oi responses = Ok m ->
  dict_get coin m = total (contributions coin responses).
Proof.
  intros H. unfold aggregate_oi in H.
  rewrite (aggregate_from_get coin _ _ _ H). apply extend_none_total.
Qed.

(** C7, as amended: permuting the outputs keeps the aggregation defined
    and keeps the set of coins; every coin's total is the float sum, in
    list order and from [0], of a permutation of the same contributions,
    so it is identical for a coin whose contributions come in the same
    order and for a coin with at most two contributions. *)
Theorem aggregate_oi_permutation (rs rs' : list response) (m : dict float) :
  Permutation rs rs' ->
  aggregate_oi rs = Ok m ->
  exists m',
    aggregate_oi rs' = Ok m'
    /\ (forall coin, In coin (keys m') <-> In coin (keys m))
    /\ (forall coin,
          Permutation (contributions coin rs) (contributions coin rs')
          /\ dict_get coin m = total (contributions coin rs)
          /\ dict_get coin m' = total (contributions coin rs'))
    /\ (forall coin,
          contributions coin rs' = contributions coin rs ->
          dict_get coin m' = dict_get coin m)
    /\ (forall coin,
          (List.length (contributions coin rs) <= 2)%nat ->
          dict_get coin m' = dict_get coin m).
Proof.
  intros HP Hagg.
  assert (Hok : is_ok (aggregate_oi rs') = true).
  { unfold aggregate_oi. rewrite aggregate_from_ok, <- (forallb_Permutation merges _ _ HP).
    rewrite <- (aggregate_from_ok rs []). fold (aggregate_oi rs). now rewrite Hagg. }
  apply is_ok_true in Hok. destruct Hok as [m' Hagg']. exists m'.
  assert (Hsame : forall coin,
             contributions coin rs' = contributions coin rs ->
             dict_get coin m' = dict_get coin m).
  { intros coin Heq.
    rewrite (aggregate_oi_get coin _ _ Hagg), (aggregate_oi_get coin _ _ Hagg'). now rewrite Heq. }
  assert (Hkeys : forall coin, In coin (keys m') <-> In coin (keys m)).
  { intros coin. rewrite <- !dict_get_in_keys.
    rewrite (aggregate_oi_get coin _ _ Hagg), (aggregate_oi_get coin _ _ Hagg'), !total_none.
    pose proof (contributions_Permutation coin _ _ HP) as HPc.
    split; intros Hne Hnil; apply Hne; rewrite Hnil in HPc.
    - now apply Permutation_nil.
    - apply Permutation_sym in HPc. now apply Permutation_nil. }
  split; [assumption|]. split; [assumption|]. split; [|split; [assumption|]].
  - intros coin. split; [now apply contributions_Permutation|].
    split; now apply aggregate_oi_get.
  - intros coin Hlen.
    rewrite (aggregate_oi_get coin _ _ Hagg), (aggregate_oi_get coin _ _ Hagg').
    apply total_Permutation_short; [|assumption]. now apply contributions_Permutation.
Qed.

Lemma aggregate_oi_permutation_witness :
  Permutation
    [RDict [("BTC", VNum 100)]; RDict [("bybit", VList [[("BTC", 50)]; [("SOL", 7)]])]]
    [RDict [("bybit", VList [[("BTC", 50)]; [("SOL", 7)]])]; RDict [("BTC", VNum 100)]]
  /\ exists m',
       aggregate_oi
         [RDict [("bybit", VList [[("BTC", 50)]; [("SOL", 7)]])]; RDict [("BTC", VNum 100)]]
       = Ok m'
       /\ dict_get "SOL" m' = dict_get "SOL" [("BTC", 150); ("SOL", 7)].
Proof.
  split; [apply perm_swap|].
  destruct (aggregate_oi_permutation
              [RDict [("BTC", VNum 100)]; RDict [("bybit", VList [[("BTC", 50)]; [("SOL", 7)]])]]
              [RDict [("bybit", VList [[("BTC", 50)]; [("SOL", 7)]])]; RDict [("BTC", VNum 100)]]
              [("BTC", 150); ("SOL", 7)] (perm_swap _ _ _) eq_refl)
    as [m' [Hagg [_ [_ [_ Hone]]]]].
  exists m'. split; [exact Hagg|]. apply Hone. simpl. lia.
Defined.

(** C7 as stated fails: three outputs reporting 0.1, 0.2 and 0.3 for one
    coin total 0.6000000000000001 in that order and 0.6 in the reverse
    order, float addition not being associative. *)
Lemma aggregate_oi_order_counterexample :
  let a := RDict [("BTC", VNum 0x1.999999999999ap-4)] in
  let b := RDict [("BTC", VNum 0x1.999999999999ap-3)] in
  let c := RDict [("BTC", VNum 0x1.3333333333333p-2)] in
  Permutation [a; b; c] [c; b; a]
  /\ aggregate_oi [a; b; c] = Ok [("BTC", 0x1.3333333333334p-1)]
  /\ aggregate_oi [c; b; a] = Ok [("BTC", 0x1.3333333333333p-1)]
  /\ (0x1.3333333333334p-1 =? 0x1.3333333333333p-1) = false.
Proof.
  cbv zeta. split; [|repeat split; reflexivity].
  apply (Permutation_rev
           [RDict [("BTC", VNum 0x1.999999999999ap-4)];
            RDict [("BTC", VNum 0x1.999999999999ap-3)];
            RDict [("BTC", VNum 0x1.3333333333333p-2)]]).
Qed.

(** ** Failed and dropped slots *)

Lemma aggregate_from_skip_falsy r rs1 : forall rs2 curr_oi,
  falsy r = true ->
  aggregate_from (rs1 ++ r :: rs2) curr_oi = aggregate_from (rs1 ++ rs2) curr_oi.
Proof.
  induction rs1 as [|r1 rs1 IH]; simpl; intros rs2 curr_oi Hf.
  - unfold merge_response. now rewrite Hf.
  - destruct (merge_response curr_oi r1); simpl; auto.
Qed.

(** A slot holding [None] or an empty dict is skipped. *)
Lemma aggregate_oi_skips_falsy r rs1 rs2 :
  falsy r = true -> aggregate_oi (rs1 ++ r :: rs2) = aggregate_oi (rs1 ++ rs2).
Proof. intros Hf. now apply aggregate_from_skip_falsy. Qed.

(** A slot holding an exception stops the aggregation, whatever the other
    slots hold. *)
Lemma aggregate_oi_exception_slot e rs :
  In (RExc e) rs -> is_ok (aggregate_oi rs) = false.
Proof.
  intros Hin. unfold aggregate_oi. rewrite aggregate_from_ok.
  apply not_true_is_false. intros Hall. rewrite forallb_forall in Hall.
  specialize (Hall _ Hin). discriminate.
Qed.

(** C5 (the code departs from it): with the Bybit task failed on a
    [KeyError] and the Binance query for BTC answered, the slot of the
    failed task is not skipped: [r.keys()] raises [AttributeError] on the
    exception object and nothing is aggregated. *)
Theorem aggregate_oi_failed_slot_raises :
  gather [Returned (RDict [("BTC", VNum 100)]); Raised (KeyError "result")]
  = Some [RDict [("BTC", VNum 100)]; RExc (KeyError "result")]
  /\ aggregate_oi [RDict [("BTC", VNum 100)]; RExc (KeyError "result")]
     = Raise AttributeError
  /\ oi [Returned (RDict [("BTC", VNum 100)]); Raised (KeyError "result")]
     = Raised AttributeError
  /\ aggregate_oi [RDict [("BTC", VNum 100)]] = Ok [("BTC", 100)].
Proof. repeat split; reflexivity. Qed.

(** ** Adapter A *)

Lemma gather_exited before after : gather (before ++ Exited :: after) = None.
Proof.
  induction before as [|t before IH]; simpl; [reflexivity|].
  rewrite IH. now destruct (slot_of t).
Qed.

(** On an answer whose body decodes as JSON: a 200 answer yields the
    one-coin contribution; a 429 answer is logged and exits, which ends
    [oi] and [main] with nothing aggregated, written or sent, whatever the
    other tasks hold; any other status is logged and yields [None], a
    slot the aggregator skips, so that the coin gets no contribution from
    it. *)
Theorem get_oi_binance_statuses
    (py_float : string -> option float) (session_get : string -> http_response)
    (symbol coin : string) (body : dict string) :
  json (session_get symbol) = Some body ->
  let stat := status (session_get symbol) in
  (stat = 200%Z ->
   forall s x, dict_get "openInterest" body = Some s -> py_float s = Some x ->
     get_oi_binance py_float session_get symbol coin
     = ([], Returned (RDict [(coin, VNum x)]))
     /\ contributions_of coin (RDict [(coin, VNum x)])
        = (if is_source_tag coin then [] else [x]))
  /\ (stat = 429%Z ->
      get_oi_binance py_float session_get symbol coin = ([(429%Z, body)], Exited)
      /\ forall before after,
           oi (before ++ snd (get_oi_binance py_float session_get symbol coin) :: after)
           = Exited
           /\ forall mean_of stdev_of format_pct updates w,
                main mean_of stdev_of format_pct
                  (before ++ snd (get_oi_binance py_float session_get symbol coin) :: after)
                  updates w
                = (w, Exited))
  /\ (stat <> 200%Z -> stat <> 429%Z ->
      get_oi_binance py_float session_get symbol coin = ([(stat, body)], Returned RNone)
      /\ (forall c, contributions_of c RNone = [])
      /\ forall rs1 rs2, aggregate_oi (rs1 ++ RNone :: rs2) = aggregate_oi (rs1 ++ rs2)).
Proof.
  intros Hjson stat. unfold get_oi_binance. rewrite Hjson. fold stat.
  split; [|split].
  - intros Hs s x Hfield Hparse. rewrite Hs, Hfield, Hparse. simpl. split; [reflexivity|].
    now rewrite String.eqb_refl.
  - intros Hs. rewrite Hs. simpl. split; [reflexivity|].
    intros before after. unfold main, oi. rewrite gather_exited. split; reflexivity.
  - intros H200 H429.
    apply Z.eqb_neq in H200. apply Z.eqb_neq in H429. rewrite H200, H429.
    split; [reflexivity|]. split; [reflexivity|].
    intros rs1 rs2. now apply aggregate_oi_skips_falsy.
Qed.

Lemma get_oi_binance_statuses_witness :
  json {| status := 429; json := Some [("code", "-1003"); ("msg", "Too many requests")] |}
  = Some [("code", "-1003"); ("msg", "Too many requests")]
  /\ get_oi_binance (fun _ => None)
       (fun _ => {| status := 429;
                    json := Some [("code", "-1003"); ("msg", "Too many requests")] |})
       "BTCUSDT" "BTC"
     = ([(429%Z, [("code", "-1003"); ("msg", "Too many requests")])], Exited).
Proof.
  split; [reflexivity|].
  apply (get_oi_binance_statuses (fun _ => None)
           (fun _ => {| status := 429;
                        json := Some [("code", "-1003"); ("msg", "Too many requests")] |})
           "BTCUSDT" "BTC" [("code", "-1003"); ("msg", "Too many requests")] eq_refl).
  reflexivity.
Defined.

(** C6 (the code departs from it): the body is decoded at line 65,
    before the status is tested.  A 502 answer whose body is not JSON is
    neither logged nor dropped: the task raises, and with the query for
    ETH answered the slot of the exception stops the aggregation and the
    run, nothing written or sent; a 429 answer whose body is not JSON
    raises as well and does not exit.  With a JSON body the same 502 is
    logged, yields [None], and the others are aggregated. *)
Theorem get_oi_binance_undecoded_answer :
  get_oi_binance (fun _ => None) (fun _ => {| status := 502; json := None |})
    "BTCUSDT" "BTC"
  = ([], Raised ContentTypeError)
  /\ oi [snd (get_oi_binance (fun _ => None) (fun _ => {| status := 502; json := None |})
               "BTCUSDT" "BTC");
         Returned (RDict [("ETH", VNum 500)])]
     = Raised AttributeError
  /\ (forall (mean_of stdev_of : list float -> float) (format_pct : float -> string)
             (updates : list string) (w : world),
         main mean_of stdev_of format_pct
           [snd (get_oi_binance (fun _ => None) (fun _ => {| status := 502; json := None |})
                   "BTCUSDT" "BTC");
            Returned (RDict [("ETH", VNum 500)])]
           updates w
         = (w, Raised AttributeError))
  /\ get_oi_binance (fun _ => None) (fun _ => {| status := 429; json := None |})
       "BTCUSDT" "BTC"
     = ([], Raised ContentTypeError)
  /\ get_oi_binance (fun _ => None)
       (fun _ => {| status := 502; json := Some [("msg", "Bad Gateway")] |})
       "BTCUSDT" "BTC"
     = ([(502%Z, [("msg", "Bad Gateway")])], Returned RNone)
  /\ oi [snd (get_oi_binance (fun _ => None)
               (fun _ => {| status := 502; json := Some [("msg", "Bad Gateway")] |})
               "BTCUSDT" "BTC");
         Returned (RDict [("ETH", VNum 500)])]
     = Returned [("ETH", 500)].
Proof. repeat split; reflexivity. Qed.

(** ** The changes *)

Lemma diff_from_NoDup coins curr_oi prev_oi : forall acc d,
  diff_from coins curr_oi prev_oi acc = Ok d -> NoDup (keys acc) -> NoDup (keys d).
Proof.
  induction coins as [|coin rest IH]; simpl; intros acc d H Hnd.
  - now injection H as <-.
  - destruct (dict_item coin curr_oi) as [c|]; simpl in H; [|discriminate].
    destruct (dict_item coin prev_oi) as [p|]; simpl in H; [|discriminate].
    destruct (relative_change c p) as [x|]; simpl in H; [|discriminate].
    apply (IH _ _ H). now apply dict_set_NoDup.
Qed.

Lemma compute_diff_NoDup curr_oi prev_oi d :
  compute_diff curr_oi prev_oi = Ok d -> NoDup (keys d).
Proof. intros H. apply (diff_from_NoDup _ _ _ _ _ H). constructor. Qed.

Lemma diff_from_get coins curr_oi prev_oi : forall acc d,
  diff_from coins curr_oi prev_oi acc = Ok d ->
  forall coin,
    (In coin coins ->
     exists c p x, dict_get coin curr_oi = Some c /\ dict_get coin prev_oi = Some p
                   /\ relative_change c p = Ok x /\ dict_get coin d = Some x)
    /\ (~ In coin coins -> dict_get coin d = dict_get coin acc).
Proof.
  induction coins as [|k rest IH]; simpl; intros acc d H coin.
  - injection H as <-. tauto.
  - unfold dict_item in H.
    destruct (dict_get k curr_oi) as [c|] eqn:Ec; simpl in H; [|discriminate].
    destruct (dict_get k prev_oi) as [p|] eqn:Ep; simpl in H; [|discriminate].
    destruct (relative_change c p) as [x|] eqn:Ex; simpl in H; [|discriminate].
    destruct (IH _ _ H coin) as [Hin Hout]. split.
    + intros [Heq|Hrest].
      * subst k. destruct (in_dec string_dec coin rest) as [Hr|Hr]; [auto|].
        exists c, p, x. repeat split; try assumption.
        rewrite (Hout Hr). apply dict_get_set_same.
      * auto.
    + intros Hnot. rewrite Hout by tauto. apply dict_get_set_other.
      apply String.eqb_neq. intros ->. tauto.
Qed.

Lemma compute_diff_get curr_oi prev_oi d coin c p :
  compute_diff curr_oi prev_oi = Ok d ->
  dict_get coin curr_oi = Some c -> dict_get coin prev_oi = Some p ->
  relative_change c p = Ok (match dict_get coin d with Some x => x | None => 0 end)
  /\ dict_get coin d <> None.
Proof.
  intros H Hc Hp.
  destruct (diff_from_get _ _ _ _ _ H coin) as [Hin _].
  destruct Hin as [c' [p' [x [Hc' [Hp' [Hx Hd]]]]]].
  { apply dict_get_in_keys. congruence. }
  rewrite Hd. split; [congruence | discriminate].
Qed.

(** A coin of the current mapping without a baseline stops the loop. *)
Lemma diff_from_missing coins curr_oi prev_oi coin : forall acc,
  (forall k, In k coins -> In k (keys curr_oi)) ->
  In coin coins -> dict_get coin prev_oi = None ->
  exists e,
    diff_from coins curr_oi prev_oi acc = Raise e
    /\ (e = ZeroDivisionError
        \/ exists k, e = KeyError k /\ In k coins /\ dict_get k prev_oi = None).
Proof.
  induction coins as [|k rest IH]; simpl; intros acc Hsub Hin Hnone; [tauto|].
  unfold dict_item.
  destruct (dict_get k curr_oi) as [c|] eqn:Ec; simpl.
  2:{ exfalso. apply dict_get_none_keys in Ec. apply Ec. apply Hsub. now left. }
  destruct (dict_get k prev_oi) as [p|] eqn:Ep; simpl.
  2:{ exists (KeyError k). split; [reflexivity|]. right. exists k. auto. }
  unfold relative_change, truediv.
  destruct (c - p =? 0); simpl.
  - destruct Hin as [->|Hin]; [congruence|].
    destruct (IH (dict_set k 0 acc) (fun k' H => Hsub k' (or_intror H)) Hin Hnone)
      as [e [He Hcase]].
    exists e. split; [assumption|].
    destruct Hcase as [Hz|[k' [Hk [Hk' Hn]]]]; [now left|]. right. exists k'. auto.
  - destruct (p =? 0); simpl.
    + exists ZeroDivisionError. auto.
    + destruct Hin as [->|Hin]; [congruence|].
      destruct (IH (dict_set k ((c - p) / p) acc) (fun k' H => Hsub k' (or_intror H)) Hin Hnone)
        as [e [He Hcase]].
      exists e. split; [assumption|].
      destruct Hcase as [Hz|[k' [Hk [Hk' Hn]]]]; [now left|]. right. exists k'. auto.
Qed.

(** C8, as amended: a coin of the current mapping with no entry in the
    prior snapshot has no fallback; the loop raises, a [KeyError] for a
    coin without baseline unless a division by zero came first, and
    [send_tg] stops there, the snapshot already overwritten and no message
    sent. *)
Theorem missing_baseline_raises
    (mean_of stdev_of : list float -> float) (format_pct : float -> string)
    (updates : list string) (curr_oi prev_oi : dict float) (w : world) (coin : string) :
  In coin (keys curr_oi) ->
  dict_get coin prev_oi = None ->
  snapshot w = Some prev_oi ->
  exists e,
    compute_diff curr_oi prev_oi = Raise e
    /\ (e = ZeroDivisionError
        \/ exists k, e = KeyError k /\ In k (keys curr_oi) /\ dict_get k prev_oi = None)
    /\ send_tg mean_of stdev_of format_pct updates curr_oi w
       = ({| snapshot := Some curr_oi; outbox := outbox w |}, Raise e).
Proof.
  intros Hin Hnone Hsnap.
  destruct (diff_from_missing (keys curr_oi) curr_oi prev_oi coin [] (fun k H => H) Hin Hnone)
    as [e [He Hcase]].
  exists e. split; [exact He|]. split; [exact Hcase|].
  unfold send_tg, classification. rewrite Hsnap. fold (compute_diff curr_oi prev_oi) in He.
  now rewrite He.
Qed.

Lemma missing_baseline_raises_witness :
  In "SOL" (keys [("BTC", 100); ("SOL", 5)])
  /\ dict_get "SOL" [("BTC", 100)] = None
  /\ exists e, compute_diff [("BTC", 100); ("SOL", 5)] [("BTC", 100)] = Raise e.
Proof.
  assert (Hin : In "SOL" (keys [("BTC", 100); ("SOL", 5)])) by (simpl; auto).
  split; [exact Hin|]. split; [reflexivity|].
  destruct (missing_baseline_raises (fun _ => 0) (fun _ => 0) (fun _ => "") []
              [("BTC", 100); ("SOL", 5)] [("BTC", 100)]
              {| snapshot := Some [("BTC", 100)]; outbox := [] |} "SOL"
              Hin eq_refl eq_refl) as [e [He _]].
  exists e. exact He.
Defined.

(** C8 as stated fails: with SOL new in the current mapping, the lookup of
    its baseline raises [KeyError] and ends the run. *)
Lemma missing_baseline_counterexample :
  dict_get "SOL" [("BTC", 100); ("SOL", 5)] = Some 5
  /\ dict_get "SOL" [("BTC", 100)] = None
  /\ compute_diff [("BTC", 100); ("SOL", 5)] [("BTC", 100)] = Raise (KeyError "SOL").
Proof. repeat split; reflexivity. Qed.

(** ** The relative change of one coin *)

Lemma relative_change_raises c p e :
  relative_change c p = Raise e -> e = ZeroDivisionError.
Proof.
  unfold relative_change, truediv.
  destruct (c - p =? 0); [discriminate|].
  destruct (p =? 0); [now intros [= <-] | discriminate].
Qed.

Lemma relative_change_zero_baseline c p :
  (p =? 0) = true -> (c =? p) = false -> relative_change c p = Raise ZeroDivisionError.
Proof.
  intros Hp Hcp. rewrite (eqb_zero_r c p Hp) in Hcp.
  unfold relative_change, truediv. rewrite (sub_zero_r c p Hp Hcp), Hcp, Hp. reflexivity.
Qed.

Lemma relative_change_safe c p :
  (p =? 0) = false \/ (c =? p) = true -> relative_change c p <> Raise ZeroDivisionError.
Proof.
  intros Hpre. unfold relative_change, truediv.
  destruct (p =? 0) eqn:Hp.
  - destruct Hpre as [Hpre|Hcp]; [discriminate|].
    rewrite (eqb_zero_r c p Hp) in Hcp. rewrite (sub_zeros c p Hcp Hp). discriminate.
  - destruct (c - p =? 0); discriminate.
Qed.

Lemma diff_from_safe coins curr_oi prev_oi : forall acc,
  (forall coin c p,
      dict_get coin curr_oi = Some c -> dict_get coin prev_oi = Some p ->
      (p =? 0) = false \/ (c =? p) = true) ->
  diff_from coins curr_oi prev_oi acc <> Raise ZeroDivisionError.
Proof.
  induction coins as [|k rest IH]; simpl; intros acc Hpre; [discriminate|].
  unfold dict_item.
  destruct (dict_get k curr_oi) as [c|] eqn:Ec; simpl; [|discriminate].
  destruct (dict_get k prev_oi) as [p|] eqn:Ep; simpl; [|discriminate].
  destruct (relative_change c p) as [x|e] eqn:Ex; simpl.
  - now apply IH.
  - pose proof (relative_change_raises _ _ _ Ex) as ->.
    exfalso. now apply (relative_change_safe c p (Hpre k c p Ec Ep)).
Qed.

Lemma diff_from_zero_baseline coins curr_oi prev_oi coin c p : forall acc,
  (forall k, In k coins -> In k (keys curr_oi) /\ In k (keys prev_oi)) ->
  In coin coins ->
  dict_get coin curr_oi = Some c -> dict_get coin prev_oi = Some p ->
  (p =? 0) = true -> (c =? p) = false ->
  diff_from coins curr_oi prev_oi acc = Raise ZeroDivisionError.
Proof.
  induction coins as [|k rest IH]; simpl; intros acc Hsub Hin Hc Hp Hz Hne; [tauto|].
  unfold dict_item.
  destruct (Hsub k (or_introl eq_refl)) as [Hkc Hkp].
  apply dict_get_in_keys in Hkc, Hkp.
  destruct (dict_get k curr_oi) as [ck|] eqn:Eck; [|congruence].
  destruct (dict_get k prev_oi) as [pk|] eqn:Epk; [|congruence]. simpl.
  destruct (relative_change ck pk) as [x|e] eqn:Ex; simpl.
  - destruct Hin as [->|Hin].
    + rewrite Hc in Eck. rewrite Hp in Epk. injection Eck as <-. injection Epk as <-.
      rewrite (relative_change_zero_baseline c p Hz Hne) in Ex. discriminate.
    + apply IH; auto.
  - now rewrite (relative_change_raises _ _ _ Ex).
Qed.

(** C10: the division of line 155 is not guarded.  A coin whose prior
    value is a zero and whose current value differs from it raises
    [ZeroDivisionError], for the coin alone and for the loop when every
    coin has a baseline; when every coin's prior value is nonzero or equal
    to its current value, no division by zero is raised. *)
Theorem relative_change_division_safety :
  (forall c p,
      (p =? 0) = true -> (c =? p) = false ->
      relative_change c p = Raise ZeroDivisionError)
  /\ (forall c p,
        (p =? 0) = false \/ (c =? p) = true ->
        relative_change c p <> Raise ZeroDivisionError)
  /\ (forall curr_oi prev_oi coin c p,
        (forall k, In k (keys curr_oi) -> In k (keys prev_oi)) ->
        dict_get coin curr_oi = Some c -> dict_get coin prev_oi = Some p ->
        (p =? 0) = true -> (c =? p) = false ->
        compute_diff curr_oi prev_oi = Raise ZeroDivisionError)
  /\ (forall curr_oi prev_oi,
        (forall coin c p,
            dict_get coin curr_oi = Some c -> dict_get coin prev_oi = Some p ->
            (p =? 0) = false \/ (c =? p) = true) ->
        compute_diff curr_oi prev_oi <> Raise ZeroDivisionError).
Proof.
  split; [exact relative_change_zero_baseline|].
  split; [exact relative_change_safe|]. split.
  - intros curr_oi prev_oi coin c p Hsub Hc Hp Hz Hne.
    apply (diff_from_zero_baseline (keys curr_oi) curr_oi prev_oi coin c p []); auto.
    apply dict_get_in_keys. congruence.
  - intros curr_oi prev_oi Hpre. now apply diff_from_safe.
Qed.

(** Finiteness matters for the zero test: the difference of two equal
    infinities is a NaN, not zero. *)
Example relative_change_equal_infinities :
  compute_diff [("BTC", infinity)] [("BTC", infinity)] = Ok [("BTC", nan)].
Proof. reflexivity. Qed.

Example relative_change_zero_prior :
  compute_diff [("BTC", 150)] [("BTC", 0)] = Raise ZeroDivisionError
  /\ compute_diff [("BTC", 150)] [("BTC", -0)] = Raise ZeroDivisionError
  /\ compute_diff [("BTC", 0)] [("BTC", -0)] = Ok [("BTC", 0)].
Proof. repeat split; reflexivity. Qed.

(** C2: for a coin of the current mapping with a baseline, both values
    finite, the change stored is [0] when the current value equals the
    previous one and [(current - previous) / previous] otherwise; prior 100
    and current 150 give 0.5, prior 100 and current 50 give -0.5, prior 100
    and current 100 give 0. *)
Theorem relative_change_values
    (curr_oi prev_oi oi_diff : dict float) (coin : string) (c p : float) :
  compute_diff curr_oi prev_oi = Ok oi_diff ->
  dict_get coin curr_oi = Some c ->
  dict_get coin prev_oi = Some p ->
  is_finite c = true ->
  is_finite p = true ->
  ((c =? p) = true -> dict_get coin oi_diff = Some 0)
  /\ ((c =? p) = false -> dict_get coin oi_diff = Some ((c - p) / p))
  /\ relative_change 150 100 = Ok 0.5
  /\ relative_change 50 100 = Ok (-0.5)
  /\ relative_change 100 100 = Ok 0.
Proof.
  intros Hdiff Hc Hp Fc Fp.
  destruct (compute_diff_get _ _ _ coin c p Hdiff Hc Hp) as [Hrel Hsome].
  destruct (dict_get coin oi_diff) as [x|]; [clear Hsome | congruence].
  unfold relative_change, truediv in Hrel. rewrite (sub_eqb_zero c p Fc Fp) in Hrel.
  split; [|split; [|repeat split; reflexivity]].
  - intros E. rewrite E in Hrel. congruence.
  - intros E. rewrite E in Hrel. destruct (p =? 0); congruence.
Qed.

Lemma relative_change_values_witness :
  compute_diff [("BTC", 150); ("ETH", 50); ("SOL", 7)] [("BTC", 100); ("ETH", 100); ("SOL", 7)]
  = Ok [("BTC", 0.5); ("ETH", -0.5); ("SOL", 0)]
  /\ ((150 =? 100) = false ->
      dict_get "BTC" [("BTC", 0.5); ("ETH", -0.5); ("SOL", 0)] = Some ((150 - 100) / 100)).
Proof.
  split; [reflexivity|].
  apply (relative_change_values
           [("BTC", 150); ("ETH", 50); ("SOL", 7)] [("BTC", 100); ("ETH", 100); ("SOL", 7)]
           [("BTC", 0.5); ("ETH", -0.5); ("SOL", 0)] "BTC" 150 100
           eq_refl eq_refl eq_refl eq_refl eq_refl).
Defined.

(** ** Classification *)

Lemma classify_from_filter mean std items : forall b,
  top_dogs (fold_left (classify_step mean std) items b)
  = (top_dogs b ++ filter to_top_dogs items)%list
  /\ gainers (fold_left (classify_step mean std) items b)
     = (gainers b ++ filter (to_gainers mean std) items)%list
  /\ losers (fold_left (classify_step mean std) items b)
     = (losers b ++ filter (to_losers mean std) items)%list.
Proof.
  induction items as [|[coin x] rest IH]; intros b; cbn [fold_left filter].
  - now rewrite !app_nil_r.
  - destruct (IH (classify_step mean std b (coin, x))) as [Ht [Hg Hl]].
    rewrite Ht, Hg, Hl. unfold to_top_dogs, to_gainers, to_losers, classify_step. simpl.
    destruct (pinned coin); simpl.
    + now rewrite <- app_assoc.
    + destruct (mean + std <=? x); simpl.
      * now rewrite <- app_assoc.
      * destruct (x <=? mean - std); simpl; [now rewrite <- app_assoc | auto].
Qed.

Lemma classify_filter mean std oi_diff :
  top_dogs (classify mean std oi_diff) = filter to_top_dogs oi_diff
  /\ gainers (classify mean std oi_diff) = filter (to_gainers mean std) oi_diff
  /\ losers (classify mean std oi_diff) = filter (to_losers mean std) oi_diff.
Proof. unfold classify. apply (classify_from_filter mean std oi_diff no_buckets). Qed.


Lemma in_filter_keys (f : string * float -> bool) coin x (d : dict float) :
  In (coin, x) (filter f d) -> In coin (keys (filter f d)).
Proof. intros Hin. unfold keys. change coin with (fst (coin, x)). now apply in_map. Qed.






Example classify_four_coins :
  classify 0.25 0.5 [("BTC", 0.5); ("SOL", 1); ("XRP", -0.5); ("ADA", 0)]
  = {| top_dogs := [("BTC", 0.5)]; gainers := [("SOL", 1)]; losers := [("XRP", -0.5)] |}.
Proof. reflexivity. Qed.

(** ** Degenerate statistics and aborted runs *)

(** C9: with fewer than two relative changes the deviation (or, with
    none, already the mean) raises [StatisticsError]; no value is put in
    its place, no bucket is computed and [send_tg] ends on that error with
    no message sent. *)
Theorem degenerate_statistics_raise
    (mean_of stdev_of : list float -> float) (format_pct : float -> string)
    (updates : list string) (curr_oi prev_oi oi_diff : dict float) (w : world) :
  snapshot w = Some prev_oi ->
  compute_diff curr_oi prev_oi = Ok oi_diff ->
  (List.length oi_diff < 2)%nat ->
  statistics_stdev stdev_of (values oi_diff) = Raise StatisticsError
  /\ classification mean_of stdev_of curr_oi prev_oi = Raise StatisticsError
  /\ send_tg mean_of stdev_of format_pct updates curr_oi w
     = ({| snapshot := Some curr_oi; outbox := outbox w |}, Raise StatisticsError)
  /\ outbox (fst (send_tg mean_of stdev_of format_pct updates curr_oi w)) = outbox w.
Proof.
  intros Hsnap Hdiff Hlen.
  assert (Hstd : statistics_stdev stdev_of (values oi_diff) = Raise StatisticsError).
  { unfold statistics_stdev, values. rewrite length_map.
    apply Nat.ltb_lt in Hlen. now rewrite Hlen. }
  assert (Hcls : classification mean_of stdev_of curr_oi prev_oi = Raise StatisticsError).
  { unfold classification. rewrite Hdiff. simpl.
    destruct (statistics_mean mean_of (values oi_diff)) as [mu|e] eqn:Em; simpl.
    - now rewrite Hstd.
    - unfold statistics_mean in Em. destruct (values oi_diff); [|discriminate].
      now injection Em as <-. }
  assert (Hsend : send_tg mean_of stdev_of format_pct updates curr_oi w
                  = ({| snapshot := Some curr_oi; outbox := outbox w |},
                     Raise StatisticsError)).
  { unfold send_tg. now rewrite Hsnap, Hcls. }
  repeat split; try assumption. now rewrite Hsend.
Qed.

Lemma degenerate_statistics_raise_witness :
  compute_diff [("BTC", 150)] [("BTC", 100)] = Ok [("BTC", 0.5)]
  /\ (List.length [("BTC", 0.5%float)] < 2)%nat
  /\ statistics_stdev (fun _ => 0) (values [("BTC", 0.5)]) = Raise StatisticsError.
Proof.
  assert (Hlen : (List.length [("BTC", 0.5%float)] < 2)%nat) by (simpl; lia).
  split; [reflexivity|]. split; [exact Hlen|].
  apply (degenerate_statistics_raise (fun _ => 0) (fun _ => 0) (fun _ => "") []
           [("BTC", 150)] [("BTC", 100)] [("BTC", 0.5)]
           {| snapshot := Some [("BTC", 100)]; outbox := [] |} eq_refl eq_refl Hlen).
Defined.




(** The buckets [send_tg] renders are those of the changes, with the mean
    and the deviation of the changes as thresholds. *)
Lemma classification_buckets
    (mean_of stdev_of : list float -> float) (curr_oi prev_oi : dict float) (b : buckets) :
  classification mean_of stdev_of curr_oi prev_oi = Ok b ->
  exists oi_diff,
    compute_diff curr_oi prev_oi = Ok oi_diff
    /\ NoDup (keys oi_diff)
    /\ (2 <= List.length oi_diff)%nat
    /\ b = classify (mean_of (values oi_diff)) (stdev_of (values oi_diff)) oi_diff.
Proof.
  unfold classification. destruct (compute_diff curr_oi prev_oi) as [d|] eqn:Ed; [|discriminate].
  simpl. unfold statistics_mean, statistics_stdev, values. rewrite length_map.
  destruct (map snd d) eqn:Ev; [discriminate|]. simpl.
  destruct (List.length d <? 2)%nat eqn:El; [discriminate|]. simpl.
  intros [= <-]. exists d. apply Nat.ltb_ge in El.
  split; [reflexivity|]. split; [now apply (compute_diff_NoDup curr_oi prev_oi)|].
  split; [assumption | now rewrite Ev].
Qed.

(** * Further properties of the program *)

(** ** The aggregator: keys and malformed slots *)

Lemma accumulate_NoDup curr_oi key x :
  NoDup (keys curr_oi) -> NoDup (keys (accumulate curr_oi key x)).
Proof. intros H. unfold accumulate. now apply dict_set_NoDup. Qed.

Lemma add_syms_NoDup syms : forall curr_oi m,
  add_syms syms curr_oi = Ok m -> NoDup (keys curr_oi) -> NoDup (keys m).
Proof.
  induction syms as [|sym rest IH]; simpl; intros curr_oi m H Hnd.
  - now injection H as <-.
  - destruct (first_key sym) as [key2|]; simpl in H; [|discriminate].
    destruct (dict_item key2 sym) as [x|]; simpl in H; [|discriminate].
    apply (IH _ _ H). now apply accumulate_NoDup.
Qed.

Lemma merge_response_NoDup r curr_oi m :
  merge_response curr_oi r = Ok m -> NoDup (keys curr_oi) -> NoDup (keys m).
Proof.
  unfold merge_response. destruct (falsy r); [now intros [= <-]|].
  destruct r as [|d|e]; try discriminate; [now intros [= <-]|].
  destruct (first_key d) as [key1|]; simpl; [|discriminate].
  destruct (dict_item key1 d) as [v|]; simpl; [|discriminate].
  destruct (is_source_tag key1), v as [x|syms]; try discriminate.
  - apply add_syms_NoDup.
  - intros [= <-] Hnd. now apply accumulate_NoDup.
Qed.

Lemma aggregate_from_NoDup responses : forall curr_oi m,
  aggregate_from responses curr_oi = Ok m -> NoDup (keys curr_oi) -> NoDup (keys m).
Proof.
  induction responses as [|r rest IH]; simpl; intros curr_oi m H Hnd.
  - now injection H as <-.
  - destruct (merge_response curr_oi r) as [c1|] eqn:E; simpl in H; [|discriminate].
    apply (IH _ _ H). now apply (merge_response_NoDup r curr_oi).
Qed.

(** X1: whatever the slots hold, a mapping the aggregator returns has
    every coin once. *)
Theorem aggregate_oi_distinct_coins (responses : list response) (curr_oi : dict float) :
  aggregate_oi responses = Ok curr_oi -> NoDup (keys curr_oi).
Proof.
  intros H. apply (aggregate_from_NoDup responses [] curr_oi H). constructor.
Qed.

Lemma aggregate_oi_distinct_coins_witness :
  aggregate_oi [RDict [("BTC", VNum 100)]; RDict [("bybit", VList [[("BTC", 50)]; [("SOL", 7)]])]]
  = Ok [("BTC", 150); ("SOL", 7)]
  /\ NoDup (keys [("BTC", 150); ("SOL", 7)]).
Proof.
  split; [reflexivity|].
  apply (aggregate_oi_distinct_coins
           [RDict [("BTC", VNum 100)]; RDict [("bybit", VList [[("BTC", 50)]; [("SOL", 7)]])]]
           [("BTC", 150); ("SOL", 7)] eq_refl).
Defined.

Lemma aggregate_from_app rs1 : forall rs2 curr_oi,
  aggregate_from (rs1 ++ rs2) curr_oi
  = (m <- aggregate_from rs1 curr_oi ;; aggregate_from rs2 m).
Proof.
  induction rs1 as [|r rs1 IH]; simpl; intros rs2 curr_oi; [reflexivity|].
  destruct (merge_response curr_oi r); simpl; auto.
Qed.

Lemma well_formed_prefix_ok rs1 curr_oi :
  Forall well_formed rs1 -> exists m, aggregate_from rs1 curr_oi = Ok m.
Proof.
  intros Hwf. apply is_ok_true. rewrite aggregate_from_ok. apply forallb_forall.
  intros r Hin. apply well_formed_merges. rewrite Forall_forall in Hwf. auto.
Qed.

Lemma aggregate_oi_stops_at rs1 r rs2 e :
  Forall well_formed rs1 ->
  (forall curr_oi, merge_response curr_oi r = Raise e) ->
  aggregate_oi (rs1 ++ r :: rs2) = Raise e.
Proof.
  intros Hwf Hr. unfold aggregate_oi. rewrite aggregate_from_app.
  destruct (well_formed_prefix_ok rs1 [] Hwf) as [m ->]. simpl. now rewrite Hr.
Qed.

(** X2: after any well-formed slots, a slot holding an exception makes
    the aggregator raise [AttributeError], whatever the later slots hold. *)
Theorem aggregate_oi_exception_raises (rs1 rs2 : list response) (e : exn) :
  Forall well_formed rs1 ->
  aggregate_oi (rs1 ++ RExc e :: rs2) = Raise AttributeError.
Proof. intros Hwf. now apply aggregate_oi_stops_at. Qed.

Lemma aggregate_oi_exception_raises_witness :
  Forall well_formed [RDict [("BTC", VNum 100)]; RNone]
  /\ aggregate_oi ([RDict [("BTC", VNum 100)]; RNone]
                     ++ RExc ContentTypeError :: [RDict [("ETH", VNum 5)]])
     = Raise AttributeError.
Proof.
  assert (Hwf : Forall well_formed [RDict [("BTC", VNum 100)]; RNone])
    by (repeat constructor).
  split; [exact Hwf|].
  apply (aggregate_oi_exception_raises
           [RDict [("BTC", VNum 100)]; RNone] [RDict [("ETH", VNum 5)]] ContentTypeError Hwf).
Defined.

(** X3: the aggregator tells the two shapes apart by the first key alone.
    After any well-formed slots, a coin named like a source tag with a
    number raises [TypeError] (the number is iterated), a list under any
    other key raises [TypeError] (it is added to a number), and an empty
    entry of a tagged list raises [IndexError]. *)
Theorem aggregate_oi_malformed_raises
    (rs1 rs2 : list response) (key : string) (x : float)
    (syms1 syms2 : list (dict float)) (tl : dict value) :
  Forall well_formed rs1 ->
  (is_source_tag key = true ->
   aggregate_oi (rs1 ++ RDict ((key, VNum x) :: tl) :: rs2) = Raise TypeError)
  /\ (is_source_tag key = false ->
      aggregate_oi (rs1 ++ RDict ((key, VList syms1) :: tl) :: rs2) = Raise TypeError)
  /\ (is_source_tag key = true ->
      Forall (fun sym : dict float => List.length sym = 1%nat) syms1 ->
      aggregate_oi (rs1 ++ RDict ((key, VList (syms1 ++ [] :: syms2)) :: tl) :: rs2)
      = Raise IndexError).
Proof.
  intros Hwf. split; [|split].
  - intros Htag. apply aggregate_oi_stops_at; [assumption|]. intros curr_oi.
    unfold merge_response, dict_item. simpl. now rewrite String.eqb_refl, Htag.
  - intros Htag. apply aggregate_oi_stops_at; [assumption|]. intros curr_oi.
    unfold merge_response, dict_item. simpl. now rewrite String.eqb_refl, Htag.
  - intros Htag Hone. apply aggregate_oi_stops_at; [assumption|]. intros curr_oi.
    unfold merge_response, dict_item. simpl. rewrite String.eqb_refl, Htag. simpl.
    revert curr_oi. induction Hone as [|sym syms Hsym Hrest IH]; intros curr_oi.
    + reflexivity.
    + destruct sym as [|[key2 y] [|? ?]]; try discriminate.
      simpl. unfold dict_item. simpl. rewrite String.eqb_refl. simpl. apply IH.
Qed.

Lemma aggregate_oi_malformed_raises_witness :
  Forall well_formed [RDict [("BTC", VNum 100)]]
  /\ (is_source_tag "ftx" = true ->
      aggregate_oi ([RDict [("BTC", VNum 100)]] ++ RDict [("ftx", VNum 3)] :: [])
      = Raise TypeError).
Proof.
  assert (Hwf : Forall well_formed [RDict [("BTC", VNum 100)]]) by (repeat constructor).
  split; [exact Hwf|].
  apply (aggregate_oi_malformed_raises [RDict [("BTC", VNum 100)]] [] "ftx" 3 [] [] [] Hwf).
Defined.

(** ** Gathering the tasks *)

Lemma gather_none_iff tasks : gather tasks = None <-> In Exited tasks.
Proof.
  induction tasks as [|t rest IH]; simpl.
  - split; [discriminate | tauto].
  - destruct t as [r|e|]; simpl.
    + destruct (gather rest) as [rs|].
      * split; [discriminate|]. intros [H|H]; [discriminate|]. apply IH in H. discriminate.
      * split; [|reflexivity]. intros _. right. now apply IH.
    + destruct (gather rest) as [rs|].
      * split; [discriminate|]. intros [H|H]; [discriminate|]. apply IH in H. discriminate.
      * split; [|reflexivity]. intros _. right. now apply IH.
    + split; [now left | reflexivity].
Qed.

Lemma gather_some_slots tasks : forall responses,
  gather tasks = Some responses -> map slot_of tasks = map Some responses.
Proof.
  induction tasks as [|t rest IH]; simpl; intros responses H.
  - now injection H as <-.
  - destruct (slot_of t) as [r|]; [|discriminate].
    destruct (gather rest) as [rs|]; [|discriminate].
    injection H as <-. simpl. f_equal. now apply IH.
Qed.

Lemma oi_raised_task tasks e :
  In (Raised e) tasks -> ~ In Exited tasks -> exists e', oi tasks = Raised e'.
Proof.
  intros Hin Hex. unfold oi.
  destruct (gather tasks) as [responses|] eqn:Hg.
  - pose proof (gather_some_slots tasks responses Hg) as Hmap.
    apply (in_map slot_of) in Hin. rewrite Hmap in Hin. simpl in Hin.
    apply in_map_iff in Hin. destruct Hin as [r [Hr Hin]]. injection Hr as ->.
    pose proof (aggregate_oi_exception_slot e responses Hin) as Hok.
    destruct (aggregate_oi responses) as [m|e']; [discriminate|]. simpl. eauto.
  - exfalso. apply Hex. now apply gather_none_iff.
Qed.

(** X4: when a task raised and none exited, [oi] raises and [main] ends
    with the snapshot and the outbox as they were: one failed task loses
    the results of all the others. *)
Theorem failed_task_loses_run
    (mean_of stdev_of : list float -> float) (format_pct : float -> string)
    (tasks : list (outcome response)) (updates : list string) (w : world) (e : exn) :
  In (Raised e) tasks ->
  ~ In Exited tasks ->
  exists e',
    oi tasks = Raised e'
    /\ main mean_of stdev_of format_pct tasks updates w = (w, Raised e').
Proof.
  intros Hin Hex. destruct (oi_raised_task tasks e Hin Hex) as [e' He'].
  exists e'. split; [assumption|]. unfold main. now rewrite He'.
Qed.

Lemma failed_task_loses_run_witness :
  In (Raised (KeyError "result"))
     [Returned (RDict [("BTC", VNum 100)]); Raised (KeyError "result")]
  /\ exists e',
       oi [Returned (RDict [("BTC", VNum 100)]); Raised (KeyError "result")] = Raised e'.
Proof.
  assert (Hin : In (Raised (KeyError "result"))
                   [Returned (RDict [("BTC", VNum 100)]); Raised (KeyError "result")])
    by (simpl; auto).
  split; [exact Hin|].
  destruct (failed_task_loses_run (fun _ => 0) (fun _ => 0) (fun _ => "")
              [Returned (RDict [("BTC", VNum 100)]); Raised (KeyError "result")]
              [] {| snapshot := None; outbox := [] |} (KeyError "result") Hin)
    as [e' [He' _]].
  - simpl. intros [H|[H|H]]; [discriminate | discriminate | exact H].
  - exists e'. exact He'.
Defined.

(** ** Strings *)

Lemma str_app_assoc (s t u : string) : ((s ++ t) ++ u)%string = (s ++ (t ++ u))%string.
Proof. induction s as [|a s IH]; simpl; [reflexivity | now rewrite IH]. Qed.

Lemma str_length_app (s t : string) :
  String.length (s ++ t) = (String.length s + String.length t)%nat.
Proof. induction s as [|a s IH]; simpl; [reflexivity | now rewrite IH]. Qed.

Lemma prefix_app p : forall s t,
  (String.length p <= String.length s)%nat -> prefix p (s ++ t) = prefix p s.
Proof.
  induction p as [|a p IH]; intros s t Hlen.
  - destruct s, t; reflexivity.
  - destruct s as [|b s]; simpl in Hlen; [lia|]. simpl.
    destruct (ascii_dec a b); [|reflexivity]. apply IH. lia.
Qed.

Lemma prefix_refl s : prefix s s = true.
Proof.
  induction s as [|a s IH]; simpl; [reflexivity|].
  destruct (ascii_dec a a); [assumption | congruence].
Qed.

Lemma contains_suffix sub s : contains sub (s ++ sub) = true.
Proof.
  induction s as [|a s IH].
  - change (("" ++ sub)%string) with sub.
    destruct sub as [|b sub]; [reflexivity|].
    cbn [contains]. now rewrite prefix_refl.
  - change ((String a s ++ sub)%string) with (String a (s ++ sub)).
    cbn [contains]. rewrite IH. apply orb_true_r.
Qed.

Lemma prefix_usdt_extend a coin :
  prefix "USDT" (String a (coin ++ "USDT")) = prefix "USDT" (String a (coin ++ "USD")).
Proof.
  assert (H : String a (coin ++ "USDT") = (String a (coin ++ "USD") ++ "T")%string).
  { simpl. f_equal. now rewrite str_app_assoc. }
  rewrite H. apply prefix_app. simpl. rewrite str_length_app. simpl. lia.
Qed.

(** A symbol made of a coin followed by [USDT], with no [USDT] starting
    inside the coin, contains [USDT] and is stripped to the coin. *)
Lemma usdt_suffix_stripped (coin : string) :
  contains "USDT" (coin ++ "USD") = false ->
  contains "USDT" (coin ++ "USDT") = true
  /\ str_replace "USDT" "" (coin ++ "USDT") = coin.
Proof.
  intros Hfree. split; [apply contains_suffix|].
  unfold str_replace. induction coin as [|a coin IH].
  - reflexivity.
  - change ((String a coin ++ "USD")%string) with (String a (coin ++ "USD")) in Hfree.
    cbn [contains] in Hfree. apply orb_false_iff in Hfree. destruct Hfree as [Hp Hrest].
    change ((String a coin ++ "USDT")%string) with (String a (coin ++ "USDT")).
    cbn [replace_from].
    rewrite prefix_usdt_extend, Hp. f_equal. now apply IH.
Qed.

(** ** The watchlist *)

Lemma set_in_In coin (s : coin_set) : set_in coin s = true <-> In coin s.
Proof.
  unfold set_in. rewrite existsb_exists. split.
  - intros [k [Hin Heq]]. apply String.eqb_eq in Heq. now subst.
  - intros Hin. exists coin. split; [assumption | apply String.eqb_refl].
Qed.

Lemma set_add_In coin k (s : coin_set) : In coin (set_add k s) <-> coin = k \/ In coin s.
Proof.
  unfold set_add. destruct (set_in k s) eqn:E.
  - apply set_in_In in E. split; [auto | intros [->|H]; assumption].
  - rewrite in_app_iff. simpl. split; [intros [H|[H|[]]]; auto | intros [->|H]; auto].
Qed.

Lemma set_add_NoDup k (s : coin_set) : NoDup s -> NoDup (set_add k s).
Proof.
  intros Hnd. unfold set_add. destruct (set_in k s) eqn:E; [assumption|].
  apply NoDup_app; [assumption | repeat constructor; simpl; tauto |].
  intros x Hx [<-|[]]. apply set_in_In in Hx. congruence.
Qed.

Lemma add_base_coins_spec data : forall acc watchlist,
  add_base_coins data acc = Ok watchlist ->
  (NoDup acc -> NoDup watchlist)
  /\ forall coin,
       In coin watchlist <-> In coin acc \/ exists perp, In perp data /\ usdt_contract coin perp.
Proof.
  induction data as [|perp rest IH]; simpl; intros acc watchlist H.
  - injection H as <-. split; [auto|]. intros coin. split; [auto|].
    intros [Hin|[perp [[] _]]]. assumption.
  - unfold dict_item in H.
    destruct (dict_get "quoteCoin" perp) as [quote|] eqn:Eq; simpl in H; [|discriminate].
    destruct (String.eqb quote "USDT") eqn:Eu.
    + apply String.eqb_eq in Eu. subst quote.
      destruct (dict_get "baseCoin" perp) as [base|] eqn:Eb; simpl in H; [|discriminate].
      destruct (IH _ _ H) as [Hnd Hmem]. split.
      * intros Hacc. apply Hnd. now apply set_add_NoDup.
      * intros coin. rewrite Hmem, set_add_In. split.
        -- intros [[->|Hin]|[p [Hp Hu]]]; eauto.
           right. exists perp. split; [now left | split; assumption].
        -- intros [Hin|[p [[<-|Hp] Hu]]]; eauto.
           destruct Hu as [_ Hu]. left. left. congruence.
    + destruct (IH _ _ H) as [Hnd Hmem]. split; [assumption|].
      intros coin. rewrite Hmem. split.
      * intros [Hin|[p [Hp Hu]]]; eauto.
      * intros [Hin|[p [[<-|Hp] Hu]]]; eauto.
        destruct Hu as [Hu _]. rewrite Eq in Hu. injection Hu as ->.
        rewrite String.eqb_refl in Eu. discriminate.
Qed.

(** X5: the watchlist holds a coin exactly when some contract of the
    listing is quoted in USDT with that base coin, and holds it once. *)
Theorem bitget_perps_watchlist (resp : body (dict string)) (watchlist : coin_set) :
  bitget_perps resp = Ok watchlist ->
  exists data,
    listing_of "data" resp = Ok data
    /\ NoDup watchlist
    /\ forall coin,
         set_in coin watchlist = true
         <-> exists perp, In perp data /\ usdt_contract coin perp.
Proof.
  unfold bitget_perps. destruct (listing_of "data" resp) as [data|]; [|discriminate].
  simpl. intros H. exists data. split; [reflexivity|].
  destruct (add_base_coins_spec data [] watchlist H) as [Hnd Hmem].
  split; [apply Hnd; constructor|].
  intros coin. rewrite set_in_In, Hmem. simpl. tauto.
Qed.

Lemma bitget_perps_watchlist_witness :
  bitget_perps
    [("data", Some [[("baseCoin", "BTC"); ("quoteCoin", "USDT")];
                    [("baseCoin", "BTC"); ("quoteCoin", "USD")];
                    [("baseCoin", "BTC"); ("quoteCoin", "USDT")]])]
  = Ok ["BTC"]
  /\ exists data,
       listing_of "data"
         [("data", Some [[("baseCoin", "BTC"); ("quoteCoin", "USDT")];
                         [("baseCoin", "BTC"); ("quoteCoin", "USD")];
                         [("baseCoin", "BTC"); ("quoteCoin", "USDT")]])]
       = Ok data
       /\ NoDup ["BTC"].
Proof.
  split; [reflexivity|].
  destruct (bitget_perps_watchlist
              [("data", Some [[("baseCoin", "BTC"); ("quoteCoin", "USDT")];
                              [("baseCoin", "BTC"); ("quoteCoin", "USD")];
                              [("baseCoin", "BTC"); ("quoteCoin", "USDT")]])]
              ["BTC"] eq_refl) as [data [Hdata [Hnd _]]].
  exists data. split; assumption.
Defined.

Lemma add_base_coins_ok data : forall acc,
  is_ok (add_base_coins data acc) = true
  <-> Forall (fun perp =>
                exists quote, dict_get "quoteCoin" perp = Some quote
                              /\ (quote = "USDT" -> dict_get "baseCoin" perp <> None)) data.
Proof.
  induction data as [|perp rest IH]; simpl; intros acc.
  - split; [constructor | reflexivity].
  - unfold dict_item.
    destruct (dict_get "quoteCoin" perp) as [quote|] eqn:Eq; simpl.
    + destruct (String.eqb quote "USDT") eqn:Eu.
      * apply String.eqb_eq in Eu. subst quote.
        destruct (dict_get "baseCoin" perp) as [base|] eqn:Eb; simpl.
        -- rewrite IH. split.
           ++ intros Hrest. constructor; [|assumption].
              exists "USDT". split; [first [assumption | reflexivity]|]. intros _. congruence.
           ++ intros Hall. now inversion Hall.
        -- split; [discriminate|]. intros Hall. inversion Hall as [|? ? [q [Hq Hb]] ?]; subst.
           assert (q = "USDT") by congruence. subst q. exfalso. apply Hb; [reflexivity | assumption].
      * rewrite IH. apply String.eqb_neq in Eu. split.
        -- intros Hrest. constructor; [|assumption].
           exists quote. split; [first [assumption | reflexivity]|]. intros ->. congruence.
        -- intros Hall. now inversion Hall.
    + split; [discriminate|]. intros Hall. inversion Hall as [|? ? [q [Hq _]] ?]. congruence.
Qed.

(** X6: [bitget_perps] raises exactly when the body has no list under
    [data], or some contract lacks [quoteCoin], or some contract quoted
    in USDT lacks [baseCoin]; a contract quoted otherwise may lack
    [baseCoin]. *)
Theorem bitget_perps_succeeds_iff (resp : body (dict string)) :
  is_ok (bitget_perps resp) = true
  <-> exists data,
        dict_get "data" resp = Some (Some data)
        /\ Forall (fun perp =>
                     exists quote,
                       dict_get "quoteCoin" perp = Some quote
                       /\ (quote = "USDT" -> dict_get "baseCoin" perp <> None)) data.
Proof.
  unfold bitget_perps, listing_of.
  destruct (dict_get "data" resp) as [[data|]|]; simpl.
  - rewrite add_base_coins_ok. split.
    + intros H. exists data. auto.
    + intros [d [[= <-] H]]. assumption.
  - split; [discriminate | intros [d [H _]]; discriminate].
  - split; [discriminate | intros [d [H _]]; discriminate].
Qed.

(** ** The bulk adapters *)

Lemma in_one_contribution coin x key y :
  In x (sym_contribution coin [(key, y)]) <-> coin = key /\ x = y.
Proof.
  simpl. destruct (String.eqb coin key) eqn:E.
  - apply String.eqb_eq in E. simpl. split; [intros [H|[]]; auto | intros [_ H]; auto].
  - apply String.eqb_neq in E. simpl. split; [tauto | intros [H _]; contradiction].
Qed.

Lemma bybit_entries_spec py_float watchlist tickers : forall entries,
  bybit_entries py_float watchlist tickers = Ok entries ->
  Forall (fun sym : dict float => List.length sym = 1%nat) entries
  /\ forall coin x,
       In x (flat_map (sym_contribution coin) entries)
       <-> exists perp, In perp tickers /\ bybit_reports py_float watchlist coin x perp.
Proof.
  induction tickers as [|perp rest IH]; simpl; intros entries H.
  - injection H as <-. split; [constructor|]. intros coin x. simpl.
    split; [tauto | intros [p [[] _]]].
  - unfold dict_item in H.
    destruct (dict_get "symbol" perp) as [v|] eqn:Es; simpl in H; [|discriminate].
    destruct v as [|b|y|sym]; try discriminate.
    destruct (contains "USDT" sym && set_in (str_replace "USDT" "" sym) watchlist) eqn:Ec.
    + destruct (dict_get "open_interest" perp) as [o|] eqn:Eo; simpl in H; [|discriminate].
      destruct (float_of py_float o) as [x0|] eqn:Ex; simpl in H; [|discriminate].
      destruct (bybit_entries py_float watchlist rest) as [es|] eqn:Er; simpl in H;
        [|discriminate].
      injection H as <-. destruct (IH es eq_refl) as [Hone Hmem].
      apply andb_true_iff in Ec. destruct Ec as [Ec1 Ec2].
      split; [constructor; [reflexivity | assumption]|].
      intros coin x. cbn [flat_map]. rewrite in_app_iff, in_one_contribution, Hmem. split.
      * intros [[-> ->]|[p [Hp Hr]]].
        -- exists perp. split; [now left|]. exists sym, o. repeat split; assumption.
        -- exists p. split; [now right | assumption].
      * intros [p [[<-|Hp] Hr]].
        -- left. destruct Hr as [sym' [o' [Hs [_ [Hc [_ [Ho Hx]]]]]]].
           rewrite Es in Hs. injection Hs as <-. rewrite Eo in Ho. injection Ho as <-.
           rewrite Ex in Hx. injection Hx as <-. auto.
        -- right. eauto.
    + destruct (IH entries H) as [Hone Hmem]. split; [assumption|].
      intros coin x. rewrite Hmem. split.
      * intros [p [Hp Hr]]. eauto.
      * intros [p [[<-|Hp] Hr]]; [|eauto].
        destruct Hr as [sym' [o' [Hs [Hc1 [Hc [Hc2 _]]]]]].
        rewrite Es in Hs. injection Hs as <-. subst coin.
        rewrite Hc1, Hc2 in Ec. discriminate.
Qed.

Lemma ftx_entries_spec py_float watchlist futures : forall entries,
  ftx_entries py_float watchlist futures = Ok entries ->
  Forall (fun sym : dict float => List.length sym = 1%nat) entries
  /\ forall coin x,
       In x (flat_map (sym_contribution coin) entries)
       <-> exists perp, In perp futures /\ ftx_reports py_float watchlist coin x perp.
Proof.
  induction futures as [|perp rest IH]; simpl; intros entries H.
  - injection H as <-. split; [constructor|]. intros coin x. simpl.
    split; [tauto | intros [p [[] _]]].
  - unfold dict_item in H.
    destruct (dict_get "underlying" perp) as [v|] eqn:Eu; simpl in H; [|discriminate].
    destruct (dict_get "perpetual" perp) as [pp|] eqn:Ep; simpl in H; [|discriminate].
    assert (Hskip : forall es,
               ftx_entries py_float watchlist rest = Ok es ->
               (forall c, v = JStr c -> truthy pp && set_in c watchlist = false) ->
               Forall (fun sym : dict float => List.length sym = 1%nat) es
               /\ forall coin x,
                    In x (flat_map (sym_contribution coin) es)
                    <-> exists p, In p (perp :: rest)
                                  /\ ftx_reports py_float watchlist coin x p).
    { intros es Hes Hno. destruct (IH es Hes) as [Hone Hmem]. split; [assumption|].
      intros coin x. rewrite Hmem. split.
      - intros [p [Hp Hr]]. exists p. split; [now right | assumption].
      - intros [p [[<-|Hp] Hr]]; [|eauto].
        destruct Hr as [p' [o' [Hu [Hp' [Ht [Hs _]]]]]].
        assert (Hv : v = JStr coin) by congruence.
        assert (Hpp : pp = p') by congruence. subst p'.
        specialize (Hno coin Hv). rewrite Ht, Hs in Hno. discriminate. }
    destruct v as [|b|y|c]; try (apply Hskip; [assumption | intros c' Hc'; discriminate]).
    destruct (truthy pp && set_in c watchlist) eqn:Ec.
    + destruct (dict_get "openInterest" perp) as [o|] eqn:Eo; simpl in H; [|discriminate].
      destruct (float_of py_float o) as [x0|] eqn:Ex; simpl in H; [|discriminate].
      destruct (ftx_entries py_float watchlist rest) as [es|] eqn:Er; simpl in H;
        [|discriminate].
      injection H as <-. destruct (IH es eq_refl) as [Hone Hmem].
      apply andb_true_iff in Ec. destruct Ec as [Ec1 Ec2].
      split; [constructor; [reflexivity | assumption]|].
      intros coin x. cbn [flat_map]. rewrite in_app_iff, in_one_contribution, Hmem. split.
      * intros [[-> ->]|[p [Hp Hr]]].
        -- exists perp. split; [now left|]. exists pp, o. repeat split; assumption.
        -- exists p. split; [now right | assumption].
      * intros [p [[<-|Hp] Hr]].
        -- left. destruct Hr as [p' [o' [Hu [_ [_ [_ [Ho Hx]]]]]]].
           rewrite Eu in Hu. injection Hu as <-. rewrite Eo in Ho. injection Ho as <-.
           rewrite Ex in Hx. injection Hx as <-. auto.
        -- right. eauto.
    + apply Hskip; [assumption|]. intros c' [= <-]. assumption.
Qed.

Lemma contributions_nonempty_in (l : list float) : l <> [] -> exists x, In x l.
Proof. destruct l as [|x l]; [congruence|]. intros _. exists x. now left. Qed.

(** X7: what [get_oi_bybit] returns is a tagged list the aggregator
    accepts; it reports [x] for a coin exactly when some ticker has a
    symbol that contains [USDT] and is stripped to that coin, the coin is
    in the watchlist and [x] is the float of its open interest; so it
    reports no coin outside the watchlist. *)
Theorem get_oi_bybit_reports
    (py_float : string -> option float) (resp : body (dict jval))
    (watchlist : coin_set) (r : response) :
  get_oi_bybit py_float resp watchlist = Ok r ->
  exists tickers,
    listing_of "result" resp = Ok tickers
    /\ well_formed r
    /\ (forall coin x,
          In x (contributions_of coin r)
          <-> exists perp, In perp tickers /\ bybit_reports py_float watchlist coin x perp)
    /\ (forall coin, contributions_of coin r <> [] -> set_in coin watchlist = true).
Proof.
  unfold get_oi_bybit. destruct (listing_of "result" resp) as [tickers|]; [|discriminate].
  simpl. destruct (bybit_entries py_float watchlist tickers) as [entries|] eqn:E;
    [|discriminate].
  simpl. intros [= <-]. exists tickers. split; [reflexivity|].
  destruct (bybit_entries_spec py_float watchlist tickers entries E) as [Hone Hmem].
  split; [simpl; auto|]. split; [exact Hmem|].
  intros coin Hne. apply contributions_nonempty_in in Hne. destruct Hne as [x Hx].
  apply Hmem in Hx. destruct Hx as [perp [_ [sym [o [_ [_ [_ [Hin _]]]]]]]]. exact Hin.
Qed.

Lemma get_oi_bybit_reports_witness :
  get_oi_bybit (fun _ => None)
    [("result", Some [[("symbol", JStr "BTCUSDT"); ("open_interest", JNum 5)];
                      [("symbol", JStr "BTCUSD"); ("open_interest", JNum 9)];
                      [("symbol", JStr "SOLUSDT"); ("open_interest", JNum 7)]])]
    ["BTC"; "ETH"]
  = Ok (RDict [("bybit", VList [[("BTC", 5)]])])
  /\ exists tickers,
       listing_of "result"
         [("result", Some [[("symbol", JStr "BTCUSDT"); ("open_interest", JNum 5)];
                           [("symbol", JStr "BTCUSD"); ("open_interest", JNum 9)];
                           [("symbol", JStr "SOLUSDT"); ("open_interest", JNum 7)]])]
       = Ok tickers
       /\ well_formed (RDict [("bybit", VList [[("BTC", 5)]])]).
Proof.
  split; [reflexivity|].
  destruct (get_oi_bybit_reports (fun _ => None)
              [("result", Some [[("symbol", JStr "BTCUSDT"); ("open_interest", JNum 5)];
                                [("symbol", JStr "BTCUSD"); ("open_interest", JNum 9)];
                                [("symbol", JStr "SOLUSDT"); ("open_interest", JNum 7)]])]
              ["BTC"; "ETH"] (RDict [("bybit", VList [[("BTC", 5)]])]) eq_refl)
    as [tickers [Hl [Hwf _]]].
  exists tickers. split; assumption.
Defined.

(** X8: a ticker whose symbol is a coin of the watchlist followed by
    [USDT], no [USDT] starting inside the coin, with a number as open
    interest, is reported under that coin with that number. *)
Theorem bybit_usdt_ticker_reported
    (py_float : string -> option float) (resp : body (dict jval))
    (watchlist : coin_set) (r : response) (tickers : list (dict jval))
    (perp : dict jval) (coin : string) (x : float) :
  get_oi_bybit py_float resp watchlist = Ok r ->
  listing_of "result" resp = Ok tickers ->
  In perp tickers ->
  dict_get "symbol" perp = Some (JStr (coin ++ "USDT")) ->
  contains "USDT" (coin ++ "USD") = false ->
  set_in coin watchlist = true ->
  dict_get "open_interest" perp = Some (JNum x) ->
  In x (contributions_of coin r).
Proof.
  unfold get_oi_bybit. intros H Hl Hin Hsym Hfree Hw Ho. rewrite Hl in H. simpl in H.
  destruct (bybit_entries py_float watchlist tickers) as [entries|] eqn:E; [|discriminate].
  simpl in H. injection H as <-. simpl.
  apply (bybit_entries_spec py_float watchlist tickers entries E).
  destruct (usdt_suffix_stripped coin Hfree) as [Hc Hr].
  exists perp. split; [assumption|]. exists (coin ++ "USDT")%string, (JNum x).
  repeat split; assumption.
Qed.

Lemma bybit_usdt_ticker_reported_witness :
  contains "USDT" ("1000SHIB" ++ "USD") = false
  /\ In 5 (contributions_of "1000SHIB"
             (RDict [("bybit", VList [[("1000SHIB", 5)]])])).
Proof.
  split; [reflexivity|].
  apply (bybit_usdt_ticker_reported (fun _ => None)
           [("result", Some [[("symbol", JStr "1000SHIBUSDT"); ("open_interest", JNum 5)];
                             [("symbol", JStr "BTCUSD"); ("open_interest", JNum 9)]])]
           ["1000SHIB"; "BTC"] (RDict [("bybit", VList [[("1000SHIB", 5)]])])
           [[("symbol", JStr "1000SHIBUSDT"); ("open_interest", JNum 5)];
            [("symbol", JStr "BTCUSD"); ("open_interest", JNum 9)]]
           [("symbol", JStr "1000SHIBUSDT"); ("open_interest", JNum 5)] "1000SHIB" 5
           eq_refl eq_refl (or_introl eq_refl) eq_refl eq_refl eq_refl eq_refl).
Defined.

(** X9: what [get_oi_ftx] returns is a tagged list the aggregator
    accepts; it reports [x] for a coin exactly when some future has that
    coin as underlying, a true [perpetual] field, the coin in the
    watchlist and [x] the float of its open interest; a future that is
    not perpetual is never reported. *)
Theorem get_oi_ftx_reports
    (py_float : string -> option float) (resp : body (dict jval))
    (watchlist : coin_set) (r : response) :
  get_oi_ftx py_float resp watchlist = Ok r ->
  exists futures,
    listing_of "result" resp = Ok futures
    /\ well_formed r
    /\ (forall coin x,
          In x (contributions_of coin r)
          <-> exists perp, In perp futures /\ ftx_reports py_float watchlist coin x perp)
    /\ (forall coin, contributions_of coin r <> [] -> set_in coin watchlist = true).
Proof.
  unfold get_oi_ftx. destruct (listing_of "result" resp) as [futures|]; [|discriminate].
  simpl. destruct (ftx_entries py_float watchlist futures) as [entries|] eqn:E;
    [|discriminate].
  simpl. intros [= <-]. exists futures. split; [reflexivity|].
  destruct (ftx_entries_spec py_float watchlist futures entries E) as [Hone Hmem].
  split; [simpl; auto|]. split; [exact Hmem|].
  intros coin Hne. apply contributions_nonempty_in in Hne. destruct Hne as [x Hx].
  apply Hmem in Hx. destruct Hx as [perp [_ [p [o [_ [_ [_ [Hin _]]]]]]]]. exact Hin.
Qed.

Lemma get_oi_ftx_reports_witness :
  get_oi_ftx (fun _ => None)
    [("result",
      Some [[("underlying", JStr "BTC"); ("perpetual", JBool true); ("openInterest", JNum 5)];
            [("underlying", JStr "ETH"); ("perpetual", JBool false); ("openInterest", JNum 9)]])]
    ["BTC"; "ETH"]
  = Ok (RDict [("ftx", VList [[("BTC", 5)]])])
  /\ exists futures,
       listing_of "result"
         [("result",
           Some [[("underlying", JStr "BTC"); ("perpetual", JBool true);
                  ("openInterest", JNum 5)];
                 [("underlying", JStr "ETH"); ("perpetual", JBool false);
                  ("openInterest", JNum 9)]])]
       = Ok futures
       /\ well_formed (RDict [("ftx", VList [[("BTC", 5)]])]).
Proof.
  split; [reflexivity|].
  destruct (get_oi_ftx_reports (fun _ => None)
              [("result",
                Some [[("underlying", JStr "BTC"); ("perpetual", JBool true);
                       ("openInterest", JNum 5)];
                      [("underlying", JStr "ETH"); ("perpetual", JBool false);
                       ("openInterest", JNum 9)]])]
              ["BTC"; "ETH"] (RDict [("ftx", VList [[("BTC", 5)]])]) eq_refl)
    as [futures [Hl [Hwf _]]].
  exists futures. split; assumption.
Defined.

(** ** The per-symbol queries *)

Lemma wanted_true watchlist perp :
  wanted watchlist perp = Ok true
  <-> exists coin,
        dict_get "contractType" perp = Some "PERPETUAL"
        /\ dict_get "quoteAsset" perp = Some "USDT"
        /\ dict_get "baseAsset" perp = Some coin
        /\ set_in coin watchlist = true.
Proof.
  unfold wanted, dict_item.
  destruct (dict_get "contractType" perp) as [ct|]; simpl.
  2:{ split; [discriminate | intros [c [H _]]; discriminate]. }
  destruct (String.eqb ct "PERPETUAL") eqn:Ect.
  2:{ apply String.eqb_neq in Ect.
      split; [discriminate | intros [c [H _]]; congruence]. }
  apply String.eqb_eq in Ect. subst ct.
  destruct (dict_get "quoteAsset" perp) as [qa|]; simpl.
  2:{ split; [discriminate | intros [c [_ [H _]]]; discriminate]. }
  destruct (String.eqb qa "USDT") eqn:Eqa.
  2:{ apply String.eqb_neq in Eqa.
      split; [discriminate | intros [c [_ [H _]]]; congruence]. }
  apply String.eqb_eq in Eqa. subst qa.
  destruct (dict_get "baseAsset" perp) as [ba|]; simpl.
  2:{ split; [discriminate | intros [c [_ [_ [H _]]]]; discriminate]. }
  split.
  - intros [= H]. exists ba. auto.
  - intros [c [_ [_ [[= <-] H]]]]. now rewrite H.
Qed.

Lemma binance_queries_spec watchlist symbols : forall queries,
  binance_queries watchlist symbols = Ok queries ->
  forall symbol coin,
    In (symbol, coin) queries
    <-> exists perp, In perp symbols /\ queried watchlist symbol coin perp.
Proof.
  induction symbols as [|perp rest IH]; simpl; intros queries H symbol coin.
  - injection H as <-. simpl. split; [tauto | intros [p [[] _]]].
  - destruct (wanted watchlist perp) as [[|]|] eqn:Ew; simpl in H; [| |discriminate].
    + apply wanted_true in Ew. destruct Ew as [c [Hct [Hqa [Hba Hin]]]].
      unfold dict_item in H. rewrite Hba in H.
      destruct (dict_get "symbol" perp) as [sym|] eqn:Es; simpl in H; [|discriminate].
      destruct (binance_queries watchlist rest) as [qs|] eqn:Er; simpl in H; [|discriminate].
      injection H as <-. simpl. rewrite (IH qs eq_refl). split.
      * intros [[= <- <-]|[p [Hp Hq]]].
        -- exists perp. split; [now left|]. repeat split; assumption.
        -- exists p. split; [now right | assumption].
      * intros [p [[<-|Hp] Hq]]; [|eauto].
        left. destruct Hq as [_ [_ [Hb [_ Hs]]]]. congruence.
    + rewrite (IH queries H). split.
      * intros [p [Hp Hq]]. eauto.
      * intros [p [[<-|Hp] Hq]]; [|eauto].
        destruct Hq as [Hct [Hqa [Hb [Hin _]]]].
        assert (Hw : wanted watchlist perp = Ok true)
          by (apply wanted_true; exists coin; auto).
        congruence.
Qed.

Lemma binance_queries_bound watchlist symbols : forall queries,
  binance_queries watchlist symbols = Ok queries ->
  (List.length queries <= List.length symbols)%nat.
Proof.
  induction symbols as [|perp rest IH]; simpl; intros queries H.
  - injection H as <-. simpl. lia.
  - destruct (wanted watchlist perp) as [[|]|]; simpl in H; [| |discriminate].
    + destruct (dict_item "symbol" perp); simpl in H; [|discriminate].
      destruct (dict_item "baseAsset" perp); simpl in H; [|discriminate].
      destruct (binance_queries watchlist rest) as [qs|]; simpl in H; [|discriminate].
      injection H as <-. simpl. specialize (IH qs eq_refl). lia.
    + specialize (IH queries H). lia.
Qed.

(** X10: [oi] creates a query for symbol and coin exactly when the
    listing has a USDT-quoted perpetual with that symbol whose base asset
    is that coin and is in the watchlist; there are at most as many
    queries as listed symbols. *)
Theorem binance_queries_selected
    (watchlist : coin_set) (symbols : list (dict string)) (queries : list (string * string)) :
  binance_queries watchlist symbols = Ok queries ->
  (forall symbol coin,
      In (symbol, coin) queries
      <-> exists perp, In perp symbols /\ queried watchlist symbol coin perp)
  /\ (forall symbol coin, In (symbol, coin) queries -> set_in coin watchlist = true)
  /\ (List.length queries <= List.length symbols)%nat.
Proof.
  intros H. pose proof (binance_queries_spec watchlist symbols queries H) as Hspec.
  split; [exact Hspec|]. split; [|now apply (binance_queries_bound watchlist symbols)].
  intros symbol coin Hin. apply Hspec in Hin.
  destruct Hin as [perp [_ [_ [_ [_ [Hw _]]]]]]. exact Hw.
Qed.

Lemma binance_queries_selected_witness :
  binance_queries ["BTC"]
    [[("symbol", "BTCUSDT"); ("contractType", "PERPETUAL"); ("quoteAsset", "USDT");
      ("baseAsset", "BTC")];
     [("symbol", "BTCUSDT_230630"); ("contractType", "CURRENT_QUARTER");
      ("quoteAsset", "USDT"); ("baseAsset", "BTC")];
     [("symbol", "ETHUSDT"); ("contractType", "PERPETUAL"); ("quoteAsset", "USDT");
      ("baseAsset", "ETH")]]
  = Ok [("BTCUSDT", "BTC")]
  /\ (List.length [("BTCUSDT", "BTC")] <= 3)%nat.
Proof.
  split; [reflexivity|].
  apply (binance_queries_selected ["BTC"]
           [[("symbol", "BTCUSDT"); ("contractType", "PERPETUAL"); ("quoteAsset", "USDT");
             ("baseAsset", "BTC")];
            [("symbol", "BTCUSDT_230630"); ("contractType", "CURRENT_QUARTER");
             ("quoteAsset", "USDT"); ("baseAsset", "BTC")];
            [("symbol", "ETHUSDT"); ("contractType", "PERPETUAL"); ("quoteAsset", "USDT");
             ("baseAsset", "ETH")]]
           [("BTCUSDT", "BTC")] eq_refl).
Defined.

(** ** The whole run *)

Lemma get_oi_binance_slot py_float session_get symbol coin r c :
  slot_of (snd (get_oi_binance py_float session_get symbol coin)) = Some r ->
  contributions_of c r <> [] -> c = coin.
Proof.
  unfold get_oi_binance. destruct (json (session_get symbol)) as [b|]; simpl.
  - destruct (status (session_get symbol) =? 200)%Z.
    + destruct (dict_get "openInterest" b) as [s|]; simpl.
      * destruct (py_float s) as [x|]; simpl; intros [= <-]; simpl; [|congruence].
        destruct (is_source_tag coin); [congruence|].
        destruct (String.eqb c coin) eqn:E; [|congruence].
        intros _. now apply String.eqb_eq.
      * intros [= <-]. simpl. congruence.
    + destruct (status (session_get symbol) =? 429)%Z; simpl; [discriminate|].
      intros [= <-]. simpl. congruence.
  - intros [= <-]. simpl. congruence.
Qed.

Lemma slot_of_result_contributions (res : result response) r c :
  slot_of (outcome_of_result res) = Some r ->
  contributions_of c r <> [] -> res = Ok r.
Proof.
  destruct res as [r'|e]; simpl; intros [= <-]; [reflexivity|]. simpl. congruence.
Qed.

(** X11: every coin of the mapping [oi] returns is in the watchlist,
    whatever the three exchanges list. *)
Theorem oi_session_within_watchlist
    (py_float : string -> option float) (s : session)
    (watchlist : coin_set) (curr_oi : dict float) :
  oi_session py_float s watchlist = Returned curr_oi ->
  forall coin, In coin (keys curr_oi) -> set_in coin watchlist = true.
Proof.
  unfold oi_session, oi_tasks.
  destruct (listing_of "symbols" (binance_symbols s)) as [symbols|]; simpl; [|discriminate].
  destruct (binance_queries watchlist symbols) as [queries|] eqn:Eq; simpl; [|discriminate].
  unfold oi.
  match goal with |- context [gather ?t] => set (tasks := t) end.
  destruct (gather tasks) as [responses|] eqn:Eg; [|discriminate].
  destruct (aggregate_oi responses) as [m|] eqn:Ea; simpl; [|discriminate].
  intros [= ->] coin Hin.
  apply dict_get_in_keys in Hin. rewrite (aggregate_oi_get coin _ _ Ea), total_none in Hin.
  apply contributions_nonempty_in in Hin. destruct Hin as [x Hx].
  unfold contributions in Hx. apply in_flat_map in Hx. destruct Hx as [r [Hr Hx]].
  assert (Hne : contributions_of coin r <> []) by (intros Hnil; rewrite Hnil in Hx; exact Hx).
  pose proof (gather_some_slots tasks responses Eg) as Hmap.
  apply (in_map Some) in Hr. rewrite <- Hmap in Hr. apply in_map_iff in Hr.
  destruct Hr as [t [Ht Hin]]. unfold tasks in Hin. apply in_app_iff in Hin.
  destruct Hin as [Hin|[<-|[<-|[]]]].
  - apply in_map_iff in Hin. destruct Hin as [[symbol base] [<- Hq]]. simpl in Ht.
    pose proof (get_oi_binance_slot _ _ _ _ _ _ Ht Hne) as ->.
    apply (binance_queries_spec watchlist symbols queries Eq) in Hq.
    destruct Hq as [perp [_ [_ [_ [_ [Hw _]]]]]]. exact Hw.
  - apply (slot_of_result_contributions _ _ coin) in Ht; [|assumption].
    unfold get_oi_bybit in Ht.
    destruct (listing_of "result" (bybit_tickers s)) as [tickers|]; [|discriminate].
    simpl in Ht. destruct (bybit_entries py_float watchlist tickers) as [es|] eqn:Ee;
      [|discriminate].
    simpl in Ht. injection Ht as <-. simpl in Hx.
    apply (bybit_entries_spec py_float watchlist tickers es Ee) in Hx.
    destruct Hx as [perp [_ [sym [o [_ [_ [_ [Hw _]]]]]]]]. exact Hw.
  - apply (slot_of_result_contributions _ _ coin) in Ht; [|assumption].
    unfold get_oi_ftx in Ht.
    destruct (listing_of "result" (ftx_futures s)) as [futures|]; [|discriminate].
    simpl in Ht. destruct (ftx_entries py_float watchlist futures) as [es|] eqn:Ee;
      [|discriminate].
    simpl in Ht. injection Ht as <-. simpl in Hx.
    apply (ftx_entries_spec py_float watchlist futures es Ee) in Hx.
    destruct Hx as [perp [_ [p [o [_ [_ [_ [Hw _]]]]]]]]. exact Hw.
Qed.

Lemma oi_session_within_watchlist_witness :
  oi_session example_float example_session ["BTC"; "ETH"; "SOL"]
  = Returned [("BTC", 1000); ("ETH", 500); ("SOL", 200)]
  /\ set_in "SOL" ["BTC"; "ETH"; "SOL"] = true.
Proof.
  split; [reflexivity|].
  apply (oi_session_within_watchlist example_float example_session ["BTC"; "ETH"; "SOL"]
           [("BTC", 1000); ("ETH", 500); ("SOL", 200)] eq_refl "SOL").
  simpl. auto.
Defined.

(** X12: when the query of a listed symbol is answered 429 with a JSON
    body, the run exits with the snapshot and the outbox as they were,
    whatever the other exchanges answer. *)
Theorem rate_limited_session
    (py_float : string -> option float)
    (mean_of stdev_of : list float -> float) (format_pct : float -> string)
    (s : session) (w : world) (watchlist : coin_set)
    (symbols : list (dict string)) (queries : list (string * string))
    (symbol coin : string) (b : dict string) :
  bitget_perps (bitget_contracts s) = Ok watchlist ->
  listing_of "symbols" (binance_symbols s) = Ok symbols ->
  binance_queries watchlist symbols = Ok queries ->
  In (symbol, coin) queries ->
  status (binance_oi s symbol) = 429%Z ->
  json (binance_oi s symbol) = Some b ->
  oi_session py_float s watchlist = Exited
  /\ main_session py_float mean_of stdev_of format_pct s w = (w, Exited).
Proof.
  intros Hw Hl Hq Hin Hs Hj.
  assert (Hex : forall tail,
             gather (map (fun q => snd (get_oi_binance py_float (binance_oi s) (fst q) (snd q)))
                       queries ++ tail) = None).
  { intros tail. apply gather_none_iff. apply in_app_iff. left.
    apply in_map_iff. exists (symbol, coin). split; [|assumption].
    simpl. unfold get_oi_binance. now rewrite Hj, Hs. }
  assert (Ht : oi_tasks py_float s watchlist
               = Ok (map (fun q => snd (get_oi_binance py_float (binance_oi s) (fst q) (snd q)))
                       queries
                     ++ [outcome_of_result (get_oi_bybit py_float (bybit_tickers s) watchlist);
                         outcome_of_result (get_oi_ftx py_float (ftx_futures s) watchlist)])%list).
  { unfold oi_tasks. rewrite Hl. cbn [bind]. rewrite Hq. reflexivity. }
  unfold main_session, oi_session. rewrite Hw. cbv beta iota. rewrite Ht.
  unfold main, oi. rewrite Hex. split; reflexivity.
Qed.

Lemma rate_limited_session_witness :
  In ("BTCUSDT", "BTC") [("BTCUSDT", "BTC"); ("ETHUSDT", "ETH")]
  /\ main_session example_float (fun _ => 0) (fun _ => 0) (fun _ => "") limited_session
       {| snapshot := Some [("BTC", 900)]; outbox := [] |}
     = ({| snapshot := Some [("BTC", 900)]; outbox := [] |}, Exited).
Proof.
  assert (Hin : In ("BTCUSDT", "BTC") [("BTCUSDT", "BTC"); ("ETHUSDT", "ETH")])
    by (simpl; auto).
  split; [exact Hin|].
  apply (rate_limited_session example_float (fun _ => 0) (fun _ => 0) (fun _ => "")
           limited_session {| snapshot := Some [("BTC", 900)]; outbox := [] |}
           ["BTC"; "ETH"; "SOL"]
           [[("symbol", "BTCUSDT"); ("contractType", "PERPETUAL");
             ("quoteAsset", "USDT"); ("baseAsset", "BTC")];
            [("symbol", "ETHUSDT"); ("contractType", "PERPETUAL");
             ("quoteAsset", "USDT"); ("baseAsset", "ETH")];
            [("symbol", "XRPUSDT"); ("contractType", "PERPETUAL");
             ("quoteAsset", "USDT"); ("baseAsset", "XRP")]]
           [("BTCUSDT", "BTC"); ("ETHUSDT", "ETH")] "BTCUSDT" "BTC" [("code", "-1003")]
           eq_refl eq_refl eq_refl Hin eq_refl eq_refl).
Defined.


(** ** The changes: coverage, precondition, unchanged market *)

Lemma dict_set_new {V : Type} k (v : V) (d : dict V) :
  ~ In k (keys d) -> dict_set k v d = (d ++ [(k, v)])%list.
Proof.
  induction d as [|[k' v'] rest IH]; simpl; intros Hnot; [reflexivity|].
  destruct (String.eqb k k') eqn:E.
  - apply String.eqb_eq in E. subst. tauto.
  - f_equal. apply IH. tauto.
Qed.

Lemma diff_from_keys coins curr_oi prev_oi : forall acc d,
  diff_from coins curr_oi prev_oi acc = Ok d ->
  NoDup coins -> (forall k, In k coins -> ~ In k (keys acc)) ->
  keys d = (keys acc ++ coins)%list.
Proof.
  induction coins as [|coin rest IH]; simpl; intros acc d H Hnd Hdisj.
  - injection H as <-. now rewrite app_nil_r.
  - destruct (dict_item coin curr_oi) as [c|]; simpl in H; [|discriminate].
    destruct (dict_item coin prev_oi) as [p|]; simpl in H; [|discriminate].
    destruct (relative_change c p) as [x|]; simpl in H; [|discriminate].
    inversion Hnd as [|? ? Hnotin Hnd']; subst.
    assert (Hnew : ~ In coin (keys acc)) by (apply Hdisj; now left).
    rewrite (IH _ _ H Hnd').
    + rewrite (dict_set_new coin x acc Hnew). unfold keys. rewrite map_app. simpl.
      now rewrite <- app_assoc.
    + intros k Hk. rewrite (dict_set_new coin x acc Hnew). unfold keys.
      rewrite map_app, in_app_iff. simpl. intros [Hin|[<-|[]]].
      * apply (Hdisj k); [now right | assumption].
      * contradiction.
Qed.

(** X14: the changes have the coins of the current mapping, in the same
    order, whatever else the snapshot holds. *)
Theorem compute_diff_same_coins (curr_oi prev_oi oi_diff : dict float) :
  NoDup (keys curr_oi) ->
  compute_diff curr_oi prev_oi = Ok oi_diff ->
  keys oi_diff = keys curr_oi
  /\ List.length oi_diff = List.length curr_oi.
Proof.
  intros Hnd H.
  assert (Hk : keys oi_diff = keys curr_oi).
  { apply (diff_from_keys (keys curr_oi) curr_oi prev_oi [] oi_diff H Hnd). intros k _ []. }
  split; [assumption|]. apply (f_equal (@List.length _)) in Hk.
  unfold keys in Hk. now rewrite !length_map in Hk.
Qed.

Lemma compute_diff_same_coins_witness :
  NoDup (keys [("BTC", 150); ("ETH", 50)])
  /\ compute_diff [("BTC", 150); ("ETH", 50)] [("ETH", 100); ("XRP", 1); ("BTC", 100)]
     = Ok [("BTC", 0.5); ("ETH", -0.5)]
  /\ keys [("BTC", 0.5); ("ETH", -0.5)] = keys [("BTC", 150); ("ETH", 50)].
Proof.
  assert (Hnd : NoDup (keys [("BTC", 150); ("ETH", 50)])).
  { repeat constructor; simpl; intuition discriminate. }
  split; [exact Hnd|]. split; [reflexivity|].
  apply (compute_diff_same_coins [("BTC", 150); ("ETH", 50)]
           [("ETH", 100); ("XRP", 1); ("BTC", 100)] [("BTC", 0.5); ("ETH", -0.5)]
           Hnd eq_refl).
Defined.

Lemma relative_change_ok c p :
  is_ok (relative_change c p) = (c - p =? 0) || negb (p =? 0).
Proof.
  unfold relative_change, truediv.
  destruct (c - p =? 0); [reflexivity|]. now destruct (p =? 0).
Qed.

Lemma diff_from_ok coins curr_oi prev_oi : forall acc,
  is_ok (diff_from coins curr_oi prev_oi acc) = true
  <-> Forall (fun coin =>
                exists c p, dict_get coin curr_oi = Some c
                            /\ dict_get coin prev_oi = Some p
                            /\ (c - p =? 0) || negb (p =? 0) = true) coins.
Proof.
  induction coins as [|coin rest IH]; simpl; intros acc.
  - split; [constructor | reflexivity].
  - unfold dict_item.
    destruct (dict_get coin curr_oi) as [c|] eqn:Ec; simpl.
    2:{ split; [discriminate|]. intros Hall.
        inversion Hall as [|? ? [c [p [Hc _]]] ?]. congruence. }
    destruct (dict_get coin prev_oi) as [p|] eqn:Ep; simpl.
    2:{ split; [discriminate|]. intros Hall.
        inversion Hall as [|? ? [c' [p [_ [Hp _]]]] ?]. congruence. }
    pose proof (relative_change_ok c p) as Hok.
    destruct (relative_change c p) as [x|e]; simpl in *.
    + rewrite IH. split.
      * intros Hrest. constructor; [|assumption]. exists c, p. auto.
      * intros Hall. now inversion Hall.
    + split; [discriminate|]. intros Hall.
      inversion Hall as [|? ? [c' [p' [Hc [Hp Hb]]]] ?].
      assert (c' = c) by congruence. assert (p' = p) by congruence. subst. congruence.
Qed.

(** X15: the changes are computed exactly when every coin of the current
    mapping has a baseline that is not a zero, or one whose difference
    with the current value is zero; otherwise the loop raises. *)
Theorem compute_diff_succeeds_iff (curr_oi prev_oi : dict float) :
  is_ok (compute_diff curr_oi prev_oi) = true
  <-> forall coin c,
        dict_get coin curr_oi = Some c ->
        exists p, dict_get coin prev_oi = Some p
                  /\ ((c - p =? 0) = true \/ (p =? 0) = false).
Proof.
  unfold compute_diff. rewrite diff_from_ok, Forall_forall. split.
  - intros Hall coin c Hc.
    destruct (Hall coin) as [c' [p [Hc' [Hp Hb]]]].
    { apply dict_get_in_keys. congruence. }
    assert (c' = c) by congruence. subst c'.
    exists p. split; [assumption|]. apply orb_true_iff in Hb.
    destruct Hb as [Hb|Hb]; [now left|]. right. now apply negb_true_iff.
  - intros Hpre coin Hin. apply dict_get_in_keys in Hin.
    destruct (dict_get coin curr_oi) as [c|] eqn:Ec; [|congruence].
    destruct (Hpre coin c Ec) as [p [Hp Hb]]. exists c, p.
    split; [reflexivity|]. split; [assumption|]. apply orb_true_iff.
    destruct Hb as [Hb|Hb]; [now left|]. right. now apply negb_true_iff.
Qed.

Lemma finite_eqb_refl c : is_finite c = true -> (c =? c) = true.
Proof.
  unfold is_finite, is_nan. intros H. apply negb_true_iff in H.
  apply orb_false_iff in H. destruct H as [H _]. now apply negb_false_iff in H.
Qed.

Lemma relative_change_same c : is_finite c = true -> relative_change c c = Ok 0.
Proof.
  intros Hf. unfold relative_change.
  now rewrite (sub_eqb_zero c c Hf Hf), (finite_eqb_refl c Hf).
Qed.

Lemma diff_from_same coins (d : dict float) : forall acc,
  NoDup coins -> (forall k, In k coins -> ~ In k (keys acc)) ->
  (forall k, In k coins -> exists c, dict_get k d = Some c /\ is_finite c = true) ->
  diff_from coins d d acc = Ok (acc ++ map (fun k => (k, 0)) coins)%list.
Proof.
  induction coins as [|coin rest IH]; simpl; intros acc Hnd Hdisj Hfin.
  - now rewrite app_nil_r.
  - destruct (Hfin coin (or_introl eq_refl)) as [c [Hc Hf]].
    unfold dict_item. rewrite Hc. simpl. rewrite (relative_change_same c Hf). simpl.
    inversion Hnd as [|? ? Hnotin Hnd']; subst.
    assert (Hnew : ~ In coin (keys acc)) by (apply Hdisj; now left).
    rewrite (dict_set_new coin 0 acc Hnew), IH.
    + now rewrite <- app_assoc.
    + assumption.
    + intros k Hk. unfold keys. rewrite map_app, in_app_iff. simpl. intros [Hin|[<-|[]]].
      * apply (Hdisj k); [now right | assumption].
      * contradiction.
    + intros k Hk. apply Hfin. now right.
Qed.

(** X16: once the snapshot could be read, [send_tg] leaves the current
    mapping in it, however the run ends; and against a snapshot equal to
    the current mapping, with finite values, every change is zero, also
    for a coin whose open interest is zero. *)
Theorem unchanged_market_zero_changes
    (mean_of stdev_of : list float -> float) (format_pct : float -> string)
    (updates : list string) (curr_oi prev_oi : dict float) (w : world) :
  snapshot w = Some prev_oi ->
  NoDup (keys curr_oi) ->
  Forall (fun item => is_finite (snd item) = true) curr_oi ->
  snapshot (fst (send_tg mean_of stdev_of format_pct updates curr_oi w)) = Some curr_oi
  /\ compute_diff curr_oi curr_oi = Ok (map (fun item => (fst item, 0)) curr_oi).
Proof.
  intros Hsnap Hnd Hfin. split.
  - unfold send_tg. rewrite Hsnap.
    destruct (classification mean_of stdev_of curr_oi prev_oi); [|reflexivity].
    now destruct updates.
  - unfold compute_diff. rewrite (diff_from_same (keys curr_oi) curr_oi []).
    + simpl. unfold keys. now rewrite map_map.
    + assumption.
    + intros k _ [].
    + intros k Hk. apply dict_get_in_keys in Hk.
      destruct (dict_get k curr_oi) as [c|] eqn:Ec; [|congruence].
      exists c. split; [reflexivity|]. apply dict_get_In in Ec.
      rewrite Forall_forall in Hfin. apply (Hfin (k, c) Ec).
Qed.

Lemma unchanged_market_zero_changes_witness :
  NoDup (keys [("BTC", 1000); ("DOGE", 0)])
  /\ compute_diff [("BTC", 1000); ("DOGE", 0)] [("BTC", 1000); ("DOGE", 0)]
     = Ok (map (fun item => (fst item, 0)) [("BTC", 1000); ("DOGE", 0)]).
Proof.
  assert (Hnd : NoDup (keys [("BTC", 1000); ("DOGE", 0)])).
  { repeat constructor; simpl; intuition discriminate. }
  split; [exact Hnd|].
  apply (unchanged_market_zero_changes (fun _ => 0) (fun _ => 0) (fun _ => "") []
           [("BTC", 1000); ("DOGE", 0)] [("BTC", 900)]
           {| snapshot := Some [("BTC", 900)]; outbox := [] |} eq_refl Hnd).
  repeat constructor.
Defined.

(** ** A successful notification *)

Lemma dict_set_length {V : Type} k (v : V) (d : dict V) :
  (List.length (dict_set k v d) <= S (List.length d))%nat.
Proof.
  induction d as [|[k' v'] rest IH]; simpl; [lia|].
  destruct (String.eqb k k'); simpl; lia.
Qed.

Lemma diff_from_length coins curr_oi prev_oi : forall acc d,
  diff_from coins curr_oi prev_oi acc = Ok d ->
  (List.length d <= List.length acc + List.length coins)%nat.
Proof.
  induction coins as [|coin rest IH]; simpl; intros acc d H.
  - injection H as <-. lia.
  - destruct (dict_item coin curr_oi) as [c|]; simpl in H; [|discriminate].
    destruct (dict_item coin prev_oi) as [p|]; simpl in H; [|discriminate].
    destruct (relative_change c p) as [x|]; simpl in H; [|discriminate].
    apply IH in H. pose proof (dict_set_length coin x acc). lia.
Qed.

(** X17: [send_tg] succeeds only with a readable snapshot, at least two
    coins in the current mapping and at least one update in the channel;
    it then sends exactly one message, to the chat of the first update,
    and leaves the current mapping as the snapshot. *)
Theorem send_tg_success
    (mean_of stdev_of : list float -> float) (format_pct : float -> string)
    (updates : list string) (curr_oi : dict float) (w w' : world) :
  send_tg mean_of stdev_of format_pct updates curr_oi w = (w', Ok tt) ->
  exists prev_oi b chat_id,
    snapshot w = Some prev_oi
    /\ classification mean_of stdev_of curr_oi prev_oi = Ok b
    /\ hd_error updates = Some chat_id
    /\ w' = {| snapshot := Some curr_oi;
               outbox := outbox w ++ [(chat_id, message format_pct b)] |}
    /\ (2 <= List.length curr_oi)%nat.
Proof.
  unfold send_tg. destruct (snapshot w) as [prev_oi|]; [|discriminate].
  destruct (classification mean_of stdev_of curr_oi prev_oi) as [b|] eqn:Ec; [|discriminate].
  destruct updates as [|chat_id rest]; [discriminate|].
  intros [= <-]. exists prev_oi, b, chat_id.
  split; [reflexivity|]. split; [exact Ec|]. split; [reflexivity|]. split; [reflexivity|].
  destruct (classification_buckets mean_of stdev_of curr_oi prev_oi b Ec)
    as [d [Hd [_ [Hlen _]]]].
  apply diff_from_length in Hd. unfold keys in Hd. rewrite length_map in Hd. simpl in Hd. lia.
Qed.

Lemma send_tg_success_witness :
  send_tg (fun _ => 0.25) (fun _ => 0.5) (fun _ => "x") ["42"; "7"]
    [("BTC", 150); ("SOL", 200)]
    {| snapshot := Some [("BTC", 100); ("SOL", 100)]; outbox := [] |}
  = ({| snapshot := Some [("BTC", 150); ("SOL", 200)];
        outbox := [("42", message (fun _ => "x")
                            (classify 0.25 0.5 [("BTC", 0.5); ("SOL", 1)]))] |}, Ok tt)
  /\ exists prev_oi b chat_id,
       snapshot {| snapshot := Some [("BTC", 100); ("SOL", 100)]; outbox := [] |}
       = Some prev_oi
       /\ classification (fun _ => 0.25) (fun _ => 0.5) [("BTC", 150); ("SOL", 200)] prev_oi
          = Ok b
       /\ hd_error ["42"; "7"] = Some chat_id.
Proof.
  split; [reflexivity|].
  destruct (send_tg_success (fun _ => 0.25) (fun _ => 0.5) (fun _ => "x") ["42"; "7"]
              [("BTC", 150); ("SOL", 200)]
              {| snapshot := Some [("BTC", 100); ("SOL", 100)]; outbox := [] |}
              {| snapshot := Some [("BTC", 150); ("SOL", 200)];
                 outbox := [("42", message (fun _ => "x")
                                     (classify 0.25 0.5 [("BTC", 0.5); ("SOL", 1)]))] |}
              eq_refl) as [prev_oi [b [chat_id [H1 [H2 [H3 _]]]]]].
  exists prev_oi, b, chat_id. repeat split; assumption.
Defined.

(** ** The text of the message *)

Lemma escape_escaped c : Ascii.eqb "\"%char c = false ->
  forall s after, escaped_from c after (escape c s) = true.
Proof.
  intros Hc. induction s as [|a s IH]; intros after; cbn [escape]; [reflexivity|].
  destruct (Ascii.eqb a c) eqn:E; cbn [escaped_from].
  - rewrite Hc, E, Ascii.eqb_refl. cbn [andb]. apply IH.
  - rewrite E. cbn [andb]. apply IH.
Qed.

Lemma escape_keeps_escaped c d :
  Ascii.eqb "\"%char c = false -> Ascii.eqb d c = false ->
  forall s after, escaped_from c after s = true -> escaped_from c after (escape d s) = true.
Proof.
  intros Hc Hd. induction s as [|a s IH]; intros after; cbn [escape escaped_from];
    [reflexivity|].
  intros H. apply andb_true_iff in H. destruct H as [H1 H2].
  destruct (Ascii.eqb a d) eqn:E; cbn [escaped_from].
  - apply Ascii.eqb_eq in E. subst a. rewrite Hc, Hd. cbn [andb].
    rewrite Hd in H1. apply IH. assumption.
  - rewrite H1. cbn [andb]. now apply IH.
Qed.

(** X18: in the text sent, every [-] and every [.] comes right after a
    backslash, whatever the coins and the formatted changes are. *)
Theorem message_escaped (format_pct : float -> string) (b : buckets) :
  escaped_from "-" false (message format_pct b) = true
  /\ escaped_from "." false (message format_pct b) = true.
Proof.
  unfold message. split.
  - apply escape_keeps_escaped; [reflexivity | reflexivity |].
    now apply escape_escaped.
  - now apply escape_escaped.
Qed.

(** ** The size of the buckets *)

Lemma filter_three_length {A : Type} (f g h : A -> bool) (l : list A) :
  (forall a, f a && g a = false) -> (forall a, f a && h a = false) ->
  (forall a, g a && h a = false) ->
  (List.length (filter f l) + List.length (filter g l) + List.length (filter h l)
   <= List.length l)%nat.
Proof.
  intros Hfg Hfh Hgh. induction l as [|a l IH]; simpl; [lia|].
  specialize (Hfg a). specialize (Hfh a). specialize (Hgh a).
  destruct (f a), (g a), (h a); simpl in *; try discriminate; lia.
Qed.

Lemma NoDup_keys_filter (f : string * float -> bool) (d : dict float) :
  NoDup (keys d) -> NoDup (keys (filter f d)).
Proof.
  induction d as [|[k v] rest IH]; simpl; intros Hnd; [constructor|].
  inversion Hnd as [|? ? Hnotin Hnd']; subst.
  destruct (f (k, v)); simpl; [|auto].
  constructor; [|auto]. intros Hin. apply Hnotin.
  unfold keys in *. apply in_map_iff in Hin. destruct Hin as [[k' v'] [Hk Hin]].
  simpl in Hk. subst k'. apply filter_In in Hin. destruct Hin as [Hin _].
  change k with (fst (k, v')). now apply in_map.
Qed.

(** X19: every line of a bucket is an item of the changes; the three
    buckets together hold at most as many lines as there are changes;
    and with distinct coins the pinned bucket holds at most two lines. *)
Theorem classify_sizes (mean std : float) (oi_diff : dict float) :
  NoDup (keys oi_diff) ->
  (forall item,
      In item (top_dogs (classify mean std oi_diff))
      \/ In item (gainers (classify mean std oi_diff))
      \/ In item (losers (classify mean std oi_diff)) ->
      In item oi_diff)
  /\ (List.length (top_dogs (classify mean std oi_diff))
      + List.length (gainers (classify mean std oi_diff))
      + List.length (losers (classify mean std oi_diff)) <= List.length oi_diff)%nat
  /\ (List.length (top_dogs (classify mean std oi_diff)) <= 2)%nat.
Proof.
  intros Hnd. destruct (classify_filter mean std oi_diff) as [Ht [Hg Hl]].
  rewrite Ht, Hg, Hl. split; [|split].
  - intros item [H|[H|H]]; apply filter_In in H; tauto.
  - apply filter_three_length; intros [coin x];
      unfold to_top_dogs, to_gainers, to_losers; simpl;
      destruct (pinned coin), (mean + std <=? x), (x <=? mean - std); reflexivity.
  - assert (Hlen : (List.length (keys (filter to_top_dogs oi_diff))
                    <= List.length ["ETH"; "BTC"])%nat).
    { apply NoDup_incl_length; [now apply NoDup_keys_filter|].
      intros coin Hin. unfold keys in Hin. apply in_map_iff in Hin.
      destruct Hin as [[k v] [Hk Hin]]. simpl in Hk. subst k.
      apply filter_In in Hin. destruct Hin as [_ Hp].
      unfold to_top_dogs, pinned in Hp. simpl in Hp. apply orb_true_iff in Hp.
      destruct Hp as [Hp|Hp]; apply String.eqb_eq in Hp; subst; simpl; auto. }
    unfold keys in Hlen. rewrite length_map in Hlen. exact Hlen.
Qed.

Lemma classify_sizes_witness :
  NoDup (keys [("BTC", 0.5); ("SOL", 1); ("ETH", -0.5); ("ADA", 0)])
  /\ Nat.le (List.length (top_dogs (classify 0.25 0.5
                                      [("BTC", 0.5); ("SOL", 1); ("ETH", -0.5); ("ADA", 0)])))
            2.
Proof.
  assert (Hnd : NoDup (keys [("BTC", 0.5); ("SOL", 1); ("ETH", -0.5); ("ADA", 0)])).
  { repeat constructor; simpl; intuition discriminate. }
  split; [exact Hnd|].
  apply (classify_sizes 0.25 0.5 [("BTC", 0.5); ("SOL", 1); ("ETH", -0.5); ("ADA", 0)] Hnd).
Defined.

(** ** A per-symbol answer that is not JSON *)

(** X20: the body is decoded before the status is read: an answer whose
    body is not JSON raises in its task and prints nothing, also on a
    429, which then does not exit; when no other task exits, [oi] raises
    and [main] ends with the snapshot and the outbox as they were. *)
Theorem non_json_answer_raises
    (py_float : string -> option float) (session_get : string -> http_response)
    (mean_of stdev_of : list float -> float) (format_pct : float -> string)
    (symbol coin : string) (before after : list (outcome response))
    (updates : list string) (w : world) :
  json (session_get symbol) = None ->
  ~ In Exited (before ++ after) ->
  get_oi_binance py_float session_get symbol coin = ([], Raised ContentTypeError)
  /\ exists e,
       oi (before ++ snd (get_oi_binance py_float session_get symbol coin) :: after)
       = Raised e
       /\ main mean_of stdev_of format_pct
            (before ++ snd (get_oi_binance py_float session_get symbol coin) :: after)
            updates w
          = (w, Raised e).
Proof.
  intros Hj Hex.
  assert (Hget : get_oi_binance py_float session_get symbol coin
                 = ([], Raised ContentTypeError))
    by (unfold get_oi_binance; now rewrite Hj).
  split; [assumption|]. rewrite Hget. simpl.
  destruct (oi_raised_task (before ++ Raised ContentTypeError :: after) ContentTypeError)
    as [e He].
  - apply in_app_iff. right. now left.
  - intros Hin. apply in_app_iff in Hin. destruct Hin as [Hin|[Hin|Hin]];
      [|discriminate|]; apply Hex; apply in_app_iff; auto.
  - exists e. split; [assumption|]. unfold main. now rewrite He.
Qed.

Lemma non_json_answer_raises_witness :
  json {| status := 429; json := None |} = None
  /\ get_oi_binance (fun _ => None) (fun _ => {| status := 429; json := None |})
       "BTCUSDT" "BTC"
     = ([], Raised ContentTypeError).
Proof.
  split; [reflexivity|].
  apply (non_json_answer_raises (fun _ => None) (fun _ => {| status := 429; json := None |})
           (fun _ => 0) (fun _ => 0) (fun _ => "") "BTCUSDT" "BTC"
           [Returned (RDict [("ETH", VNum 5)])] [] []
           {| snapshot := None; outbox := [] |} eq_refl).
  simpl. intros [H|H]; [discriminate | exact H].
Defined.
